(** * Nightlight-O-Matic: the schedule engine of [src/lampomatic.cpp]

    A shallow embedding of the sketch's schedule/timer reconciliation code
    (version 1.2.0) and the properties its design document states about it.

    The sketch keeps its whole state in globals ([activeSchedules], the
    TimeAlarms pool [Alarm], the emulated [EEPROM], the two output pins);
    the embedding threads them through a small state monad.  What the
    sketch obtains from its environment (the result of [EEPROM.commit],
    [weekday()], [millis()], an incoming POST) is an explicit argument. *)

From Stdlib Require Import Ascii.
From stdpp Require Import gmap strings pretty list vector.

Local Open Scope Z_scope.

(** ** Arduino [String] *)

Module WString.

Definition isspace (c : ascii) : bool :=
  let n := Z.of_N (N_of_ascii c) in
  (n =? 32) || ((9 <=? n) && (n <=? 13)).

Definition digit_of (c : ascii) : option Z :=
  let n := Z.of_N (N_of_ascii c) in
  if (48 <=? n) && (n <=? 57) then Some (n - 48) else None.

Fixpoint skip_spaces (s : string) : string :=
  match s with
  | String c s' => if isspace c then skip_spaces s' else s
  | EmptyString => s
  end.

Fixpoint digits (acc : Z) (s : string) : Z :=
  match s with
  | String c s' =>
      match digit_of c with
      | Some d => digits (10 * acc + d) s'
      | None => acc
      end
  | EmptyString => acc
  end.

Definition LONG_MAX : Z := 2147483647.
Definition LONG_MIN : Z := -2147483648.

Definition clamp_long (z : Z) : Z := Z.max LONG_MIN (Z.min LONG_MAX z).

(** [atol]: leading white space, an optional sign, then decimal digits up
    to the first other character; out-of-range values saturate. *)
Definition atol (s : string) : Z :=
  match skip_spaces s with
  | String "-" s' => clamp_long (- digits 0 s')
  | String "+" s' => clamp_long (digits 0 s')
  | s' => clamp_long (digits 0 s')
  end.

(** [String::toInt()] *)
Definition toInt (s : string) : Z := atol s.

Fixpoint drop (n : nat) (s : string) : string :=
  match n, s with
  | O, _ => s
  | S n', String _ s' => drop n' s'
  | S _, EmptyString => EmptyString
  end.

Fixpoint take (n : nat) (s : string) : string :=
  match n, s with
  | S n', String c s' => String c (take n' s')
  | _, _ => EmptyString
  end.

(** [String::substring(left, right)]: the indices are swapped when
    [left > right], a [left] past the end gives the empty string and
    [right] is cut at the length. *)
Definition substring (left right : nat) (s : string) : string :=
  let '(l, r) := if (right <? left)%nat then (right, left) else (left, right) in
  if (String.length s <=? l)%nat then EmptyString
  else take (Nat.min r (String.length s) - l) (drop l s).

(** [String::substring(beginIndex)] *)
Definition substring_from (left : nat) (s : string) : string :=
  substring left (String.length s) s.

(** [String(int)]: the decimal rendering. *)
Definition of_int (z : Z) : string := pretty z.

(** [s != NULL] on a [String] compares with the empty C string. *)
Definition not_null (s : string) : bool := negb (String.eqb s EmptyString).

End WString.

(** ** The sketch's data *)

(** [int timerIds[6]] is a six-element array. *)
Record Schedule := mkSchedule {
  timerIds : vec Z 6;
  startHour : Z;
  startMinute : Z;
  endHour : Z;
  endMinute : Z
}.

Record OutputState := mkOutputState {
  dayActive : bool;
  nightActive : bool
}.

Record StateContainer := mkStateContainer {
  persistedInEEPROM : bool;
  initialized : bool;
  dstActive : bool;
  day : Schedule;
  night : Schedule;
  weekendDay : Schedule;
  weekendNight : Schedule;
  dayIntensity : Z;
  nightIntensity : Z;
  currentState : OutputState
}.

Inductive scheduleType_t :=
  | dayStart | dayEnd | nightStart | nightEnd
  | weekendDayStart | weekendDayEnd | weekendNightStart | weekendNightEnd.

(** The four alarm callbacks, as the function pointers handed to
    [Alarm.alarmRepeat]. *)
Inductive OnTick_t := cb_startDay | cb_endDay | cb_startNight | cb_endNight.

(** TimeLib's [timeDayOfWeek_t]; [weekday()] returns the same numbering,
    Sunday being 1. *)
Inductive timeDayOfWeek_t :=
  | dowInvalid | dowSunday | dowMonday | dowTuesday | dowWednesday
  | dowThursday | dowFriday | dowSaturday.

Definition dow_to_int (d : timeDayOfWeek_t) : Z :=
  match d with
  | dowInvalid => 0 | dowSunday => 1 | dowMonday => 2 | dowTuesday => 3
  | dowWednesday => 4 | dowThursday => 5 | dowFriday => 6 | dowSaturday => 7
  end.

Global Instance OnTick_t_eq_dec : EqDecision OnTick_t.
Proof. solve_decision. Defined.
Global Instance timeDayOfWeek_t_eq_dec : EqDecision timeDayOfWeek_t.
Proof. solve_decision. Defined.

Definition utcOffsetInSeconds : Z := 3600.
Definition eepromAdress : Z := 0.
Definition superSecretPassword : string := "zuul".

(** ** The alarm pool *)

(** Modelled from the spec: the TimeAlarms library (its [Alarm] object) is
    not part of the sketch.  The design document's Alarm Registry is a
    fixed-capacity pool of slots, each bound to an optional day of the week,
    a trigger time and a callback; [allocate] takes a free slot and arms it,
    or fails when the pool is full; [release] of a free or invalid handle is
    a no-op; [setEnabled] flips firing without freeing the slot. *)
Record AlarmClass := mkAlarm {
  alarmDow : option timeDayOfWeek_t;
  alarmH : Z;
  alarmM : Z;
  alarmS : Z;
  onTickHandler : OnTick_t;
  isEnabled : bool
}.

Global Instance AlarmClass_eq_dec : EqDecision AlarmClass.
Proof. solve_decision. Defined.

Definition dtINVALID_ALARM_ID : Z := 255.

Module TimeAlarms.

Abbreviation pool := (list (option AlarmClass)).

(** The slot a handle names, [None] for a free slot or an invalid handle. *)
Definition slot (p : pool) (ID : Z) : option AlarmClass :=
  if 0 <=? ID then mjoin (p !! Z.to_nat ID) else None.

Definition isAllocated (p : pool) (ID : Z) : bool :=
  bool_decide (is_Some (slot p ID)).

Definition setEnabled (b : bool) (a : AlarmClass) : AlarmClass :=
  mkAlarm (alarmDow a) (alarmH a) (alarmM a) (alarmS a) (onTickHandler a) b.

(** [allocate]: the first free slot, armed. *)
Definition create (a : AlarmClass) (p : pool) : Z * pool :=
  match list_find (λ s, s = None) p with
  | Some (i, _) => (Z.of_nat i, <[i := Some (setEnabled true a)]> p)
  | None => (dtINVALID_ALARM_ID, p)
  end.

(** [release] *)
Definition free (ID : Z) (p : pool) : pool :=
  match slot p ID with
  | Some _ => <[Z.to_nat ID := None]> p
  | None => p
  end.

Definition enable (ID : Z) (p : pool) : pool :=
  match slot p ID with
  | Some a => <[Z.to_nat ID := Some (setEnabled true a)]> p
  | None => p
  end.

Definition disable (ID : Z) (p : pool) : pool :=
  match slot p ID with
  | Some a => <[Z.to_nat ID := Some (setEnabled false a)]> p
  | None => p
  end.

(** The number of slots held. *)
Definition count (p : pool) : nat := length (filter (λ s, s ≠ None) p).

End TimeAlarms.

(** ** Globals and the state monad *)

(** The emulated EEPROM: [get] and [put] work on a RAM copy, [commit]
    writes it to flash and reports whether that worked. *)
Record EEPROMClass := mkEEPROM {
  eeprom_data : StateContainer;
  eeprom_flash : StateContainer
}.

Inductive pin := D1 | D2.

Definition nightPin : pin := D1.
Definition dayPin : pin := D2.

(** What a pin was last driven with. *)
Inductive PinOutput :=
  | PinUnset
  | PinLow
  | PinPWM (duty : Z).

Record Globals := mkGlobals {
  activeSchedules : StateContainer;
  Alarm : list (option AlarmClass);
  EEPROM : EEPROMClass;
  dstOffsetInSeconds : Z;
  timeClient_offset : Z;
  firstRun : bool;
  previousMillis : Z;
  currentStatePersisted : bool;
  out_D1 : PinOutput;
  out_D2 : PinOutput
}.

Definition M (A : Type) : Type := Globals → A * Globals.

Global Instance M_ret : MRet M := λ A x g, (x, g).
Global Instance M_bind : MBind M := λ A B f c g, let '(x, g') := c g in f x g'.

Definition gets {A} (f : Globals → A) : M A := λ g, (f g, g).
Definition modify (f : Globals → Globals) : M unit := λ g, (tt, f g).
Definition exec {A} (c : M A) (g : Globals) : Globals := snd (c g).
Definition eval {A} (c : M A) (g : Globals) : A := fst (c g).
Definition when (b : bool) (c : M unit) : M unit := if b then c else mret tt.

(** Field updates. *)
Definition upd_timerIds (f : vec Z 6 → vec Z 6) (s : Schedule) : Schedule :=
  mkSchedule (f (timerIds s)) (startHour s) (startMinute s) (endHour s) (endMinute s).

Definition upd_day (f : Schedule → Schedule) (a : StateContainer) : StateContainer :=
  mkStateContainer (persistedInEEPROM a) (initialized a) (dstActive a)
    (f (day a)) (night a) (weekendDay a) (weekendNight a)
    (dayIntensity a) (nightIntensity a) (currentState a).

Definition upd_night (f : Schedule → Schedule) (a : StateContainer) : StateContainer :=
  mkStateContainer (persistedInEEPROM a) (initialized a) (dstActive a)
    (day a) (f (night a)) (weekendDay a) (weekendNight a)
    (dayIntensity a) (nightIntensity a) (currentState a).

Definition upd_weekendDay (f : Schedule → Schedule) (a : StateContainer) : StateContainer :=
  mkStateContainer (persistedInEEPROM a) (initialized a) (dstActive a)
    (day a) (night a) (f (weekendDay a)) (weekendNight a)
    (dayIntensity a) (nightIntensity a) (currentState a).

Definition upd_weekendNight (f : Schedule → Schedule) (a : StateContainer) : StateContainer :=
  mkStateContainer (persistedInEEPROM a) (initialized a) (dstActive a)
    (day a) (night a) (weekendDay a) (f (weekendNight a))
    (dayIntensity a) (nightIntensity a) (currentState a).

Definition set_persistedInEEPROM (b : bool) (a : StateContainer) : StateContainer :=
  mkStateContainer b (initialized a) (dstActive a)
    (day a) (night a) (weekendDay a) (weekendNight a)
    (dayIntensity a) (nightIntensity a) (currentState a).

Definition set_initialized (b : bool) (a : StateContainer) : StateContainer :=
  mkStateContainer (persistedInEEPROM a) b (dstActive a)
    (day a) (night a) (weekendDay a) (weekendNight a)
    (dayIntensity a) (nightIntensity a) (currentState a).

Definition set_dstActive (b : bool) (a : StateContainer) : StateContainer :=
  mkStateContainer (persistedInEEPROM a) (initialized a) b
    (day a) (night a) (weekendDay a) (weekendNight a)
    (dayIntensity a) (nightIntensity a) (currentState a).

Definition set_dayIntensity (z : Z) (a : StateContainer) : StateContainer :=
  mkStateContainer (persistedInEEPROM a) (initialized a) (dstActive a)
    (day a) (night a) (weekendDay a) (weekendNight a)
    z (nightIntensity a) (currentState a).

Definition set_nightIntensity (z : Z) (a : StateContainer) : StateContainer :=
  mkStateContainer (persistedInEEPROM a) (initialized a) (dstActive a)
    (day a) (night a) (weekendDay a) (weekendNight a)
    (dayIntensity a) z (currentState a).

Definition set_currentState (o : OutputState) (a : StateContainer) : StateContainer :=
  mkStateContainer (persistedInEEPROM a) (initialized a) (dstActive a)
    (day a) (night a) (weekendDay a) (weekendNight a)
    (dayIntensity a) (nightIntensity a) o.

Definition upd_activeSchedules (f : StateContainer → StateContainer) (g : Globals) : Globals :=
  mkGlobals (f (activeSchedules g)) (Alarm g) (EEPROM g) (dstOffsetInSeconds g)
    (timeClient_offset g) (firstRun g) (previousMillis g)
    (currentStatePersisted g) (out_D1 g) (out_D2 g).

Definition upd_Alarm (f : TimeAlarms.pool → TimeAlarms.pool) (g : Globals) : Globals :=
  mkGlobals (activeSchedules g) (f (Alarm g)) (EEPROM g) (dstOffsetInSeconds g)
    (timeClient_offset g) (firstRun g) (previousMillis g)
    (currentStatePersisted g) (out_D1 g) (out_D2 g).

Definition set_EEPROM (e : EEPROMClass) (g : Globals) : Globals :=
  mkGlobals (activeSchedules g) (Alarm g) e (dstOffsetInSeconds g)
    (timeClient_offset g) (firstRun g) (previousMillis g)
    (currentStatePersisted g) (out_D1 g) (out_D2 g).

Definition set_dstOffsetInSeconds (z : Z) (g : Globals) : Globals :=
  mkGlobals (activeSchedules g) (Alarm g) (EEPROM g) z
    (timeClient_offset g) (firstRun g) (previousMillis g)
    (currentStatePersisted g) (out_D1 g) (out_D2 g).

Definition set_timeClient_offset (z : Z) (g : Globals) : Globals :=
  mkGlobals (activeSchedules g) (Alarm g) (EEPROM g) (dstOffsetInSeconds g)
    z (firstRun g) (previousMillis g)
    (currentStatePersisted g) (out_D1 g) (out_D2 g).

Definition set_firstRun (b : bool) (g : Globals) : Globals :=
  mkGlobals (activeSchedules g) (Alarm g) (EEPROM g) (dstOffsetInSeconds g)
    (timeClient_offset g) b (previousMillis g)
    (currentStatePersisted g) (out_D1 g) (out_D2 g).

Definition set_previousMillis (z : Z) (g : Globals) : Globals :=
  mkGlobals (activeSchedules g) (Alarm g) (EEPROM g) (dstOffsetInSeconds g)
    (timeClient_offset g) (firstRun g) z
    (currentStatePersisted g) (out_D1 g) (out_D2 g).

Definition set_currentStatePersisted (b : bool) (g : Globals) : Globals :=
  mkGlobals (activeSchedules g) (Alarm g) (EEPROM g) (dstOffsetInSeconds g)
    (timeClient_offset g) (firstRun g) (previousMillis g)
    b (out_D1 g) (out_D2 g).

Definition set_pin (p : pin) (o : PinOutput) (g : Globals) : Globals :=
  mkGlobals (activeSchedules g) (Alarm g) (EEPROM g) (dstOffsetInSeconds g)
    (timeClient_offset g) (firstRun g) (previousMillis g)
    (currentStatePersisted g)
    (match p with D1 => o | D2 => out_D1 g end)
    (match p with D1 => out_D2 g | D2 => o end).

Definition pin_output (p : pin) (g : Globals) : PinOutput :=
  match p with D1 => out_D1 g | D2 => out_D2 g end.

(** ** Library calls in the monad *)

(** [Alarm.alarmRepeat(H, M, S, handler)] (every day) and
    [Alarm.alarmRepeat(DOW, H, M, S, handler)] (weekly), told apart by the
    optional day. *)
Definition Alarm_alarmRepeat (DOW : option timeDayOfWeek_t) (H Mi S : Z)
    (handler : OnTick_t) : M Z :=
  λ g, let '(ID, p) := TimeAlarms.create (mkAlarm DOW H Mi S handler true) (Alarm g) in
       (ID, upd_Alarm (λ _, p) g).

Definition Alarm_free (ID : Z) : M unit := modify (upd_Alarm (TimeAlarms.free ID)).
Definition Alarm_enable (ID : Z) : M unit := modify (upd_Alarm (TimeAlarms.enable ID)).
Definition Alarm_disable (ID : Z) : M unit := modify (upd_Alarm (TimeAlarms.disable ID)).

Definition timeClient_setTimeOffset (z : Z) : M unit := modify (set_timeClient_offset z).

(** [timeClient.update()] talks to the NTP server; it touches no state of
    the sketch. *)
Definition timeClient_update : M unit := mret tt.

Definition EEPROM_get : M StateContainer := gets (λ g, eeprom_data (EEPROM g)).

Definition EEPROM_put (s : StateContainer) : M unit :=
  modify (λ g, set_EEPROM (mkEEPROM s (eeprom_flash (EEPROM g))) g).

(** [EEPROM.commit()], whose outcome [ok] the flash decides. *)
Definition EEPROM_commit (ok : bool) : M bool :=
  λ g, (ok, if ok then set_EEPROM (mkEEPROM (eeprom_data (EEPROM g)) (eeprom_data (EEPROM g))) g
            else g).

(** Arduino's [map]: C's truncating division; for the intensities the
    form allows, 1 to 100, no [long] overflows. *)
Definition map (x in_min in_max out_min out_max : Z) : Z :=
  (x - in_min) * (out_max - out_min) ÷ (in_max - in_min) + out_min.

Definition analogWrite (p : pin) (v : Z) : M unit := modify (set_pin p (PinPWM v)).

(** [digitalWrite(p, LOW)] *)
Definition digitalWrite_LOW (p : pin) : M unit := modify (set_pin p PinLow).

(** ** The sketch's functions *)

Definition clearOldTimers (ids : vec Z 6) (size : nat) : M unit :=
  foldr (λ ID k, Alarm_free ID;; k) (mret tt) (take size (vec_to_list ids)).

(** [activeSchedules.<which>.timerIds[i] = <call>] *)
Definition store_timerId (which : (Schedule → Schedule) → StateContainer → StateContainer)
    (i : fin 6) (call : M Z) : M unit :=
  ID ← call; modify (upd_activeSchedules (which (upd_timerIds (vinsert i ID)))).

Definition setAlarms (weekendActive : bool) : M unit :=
  when weekendActive (
    (* Days: Friday, Saturday, Sunday *)
    a ← gets activeSchedules;
    store_timerId upd_weekendDay 0%fin
      (Alarm_alarmRepeat (Some dowFriday) (startHour (day a)) (startMinute (day a)) 0 cb_startDay);;
    a ← gets activeSchedules;
    store_timerId upd_weekendDay 1%fin
      (Alarm_alarmRepeat (Some dowFriday) (endHour (weekendDay a)) (endMinute (weekendDay a)) 0 cb_endDay);;
    a ← gets activeSchedules;
    store_timerId upd_weekendDay 2%fin
      (Alarm_alarmRepeat (Some dowSaturday) (startHour (weekendDay a)) (startMinute (weekendDay a)) 0 cb_startDay);;
    a ← gets activeSchedules;
    store_timerId upd_weekendDay 3%fin
      (Alarm_alarmRepeat (Some dowSaturday) (endHour (weekendDay a)) (endMinute (weekendDay a)) 0 cb_endDay);;
    a ← gets activeSchedules;
    store_timerId upd_weekendDay 4%fin
      (Alarm_alarmRepeat (Some dowSunday) (startHour (weekendDay a)) (startMinute (weekendDay a)) 0 cb_startDay);;
    a ← gets activeSchedules;
    store_timerId upd_weekendDay 5%fin
      (Alarm_alarmRepeat (Some dowSunday) (endHour (day a)) (endMinute (day a)) 0 cb_endDay);;
    (* Nights: Friday to Saturday, Saturday to Sunday, Sunday *)
    a ← gets activeSchedules;
    store_timerId upd_weekendNight 0%fin
      (Alarm_alarmRepeat (Some dowFriday) (startHour (weekendNight a)) (startMinute (weekendNight a)) 0 cb_startNight);;
    a ← gets activeSchedules;
    store_timerId upd_weekendNight 1%fin
      (Alarm_alarmRepeat (Some dowSaturday) (endHour (weekendNight a)) (endMinute (weekendNight a)) 0 cb_endNight);;
    a ← gets activeSchedules;
    store_timerId upd_weekendNight 2%fin
      (Alarm_alarmRepeat (Some dowSaturday) (startHour (weekendNight a)) (startMinute (weekendNight a)) 0 cb_startNight);;
    a ← gets activeSchedules;
    store_timerId upd_weekendNight 3%fin
      (Alarm_alarmRepeat (Some dowSunday) (endHour (weekendNight a)) (endMinute (weekendNight a)) 0 cb_endNight);;
    a ← gets activeSchedules;
    store_timerId upd_weekendNight 4%fin
      (Alarm_alarmRepeat (Some dowSunday) (startHour (night a)) (startMinute (night a)) 0 cb_startNight)
  );;
  (* Regular programming *)
  a ← gets activeSchedules;
  store_timerId upd_day 0%fin
    (Alarm_alarmRepeat None (startHour (day a)) (startMinute (day a)) 0 cb_startDay);;
  a ← gets activeSchedules;
  store_timerId upd_day 1%fin
    (Alarm_alarmRepeat None (endHour (day a)) (endMinute (day a)) 0 cb_endDay);;
  a ← gets activeSchedules;
  store_timerId upd_night 0%fin
    (Alarm_alarmRepeat None (startHour (night a)) (startMinute (night a)) 0 cb_startNight);;
  a ← gets activeSchedules;
  store_timerId upd_night 1%fin
    (Alarm_alarmRepeat None (endHour (night a)) (endMinute (night a)) 0 cb_endNight).

(** The first half of [setSchedule]: the old alarms are freed. *)
Definition setSchedule_teardown : M unit :=
  a ← gets activeSchedules;
  when (initialized a) (
    clearOldTimers (timerIds (day a)) 2;;
    clearOldTimers (timerIds (night a)) 2;;
    when (negb (startHour (weekendDay a) =? -1)) (
      clearOldTimers (timerIds (weekendDay a)) 6;;
      clearOldTimers (timerIds (weekendNight a)) 5)).

(** The second half: the new schedule is stored and its alarms are set. *)
Definition setSchedule_install (day night : Schedule) (dst : bool)
    (weekendDay weekendNight : Schedule) : M unit :=
  modify (upd_activeSchedules (set_dstActive dst));;
  modify (upd_activeSchedules (set_persistedInEEPROM false));;
  modify (upd_activeSchedules (upd_day (λ _, day)));;
  modify (upd_activeSchedules (upd_night (λ _, night)));;
  modify (upd_activeSchedules (upd_weekendDay (λ _, weekendDay)));;
  modify (upd_activeSchedules (upd_weekendNight (λ _, weekendNight)));;
  modify (set_dstOffsetInSeconds (if dst then 3600 else 0));;
  off ← gets dstOffsetInSeconds;
  timeClient_setTimeOffset (utcOffsetInSeconds + off);;
  timeClient_update;;
  setAlarms (negb (startHour weekendDay =? -1));;
  modify (upd_activeSchedules (set_initialized true)).

Definition setSchedule (day night : Schedule) (dst : bool)
    (weekendDay weekendNight : Schedule) : M unit :=
  setSchedule_teardown;;
  setSchedule_install day night dst weekendDay weekendNight.

Definition readSavedSettings (eepromAdress : Z) : M unit :=
  savedSchedule ← EEPROM_get;
  when (persistedInEEPROM savedSchedule) (
    modify (set_dstOffsetInSeconds (if dstActive savedSchedule then 3600 else 0));;
    modify (upd_activeSchedules (λ _, savedSchedule))).

(** [saveOk] is what [EEPROM.commit()] will answer. *)
Definition saveSettings (saveOk : bool) (eepromAdress : Z)
    (currentState : StateContainer) : M bool :=
  let toSave := set_persistedInEEPROM true currentState in
  EEPROM_put toSave;;
  saveOk ← EEPROM_commit saveOk;
  modify (upd_activeSchedules (set_persistedInEEPROM saveOk));;
  mret saveOk.

(** [wd] is what [weekday()] answers. *)
Definition setWeekendTimerState (wd : Z) : M unit :=
  a ← gets activeSchedules;
  if (wd =? dow_to_int dowFriday) || (wd =? dow_to_int dowSaturday)
     || (wd =? dow_to_int dowSunday)
  then
    Alarm_disable (timerIds (day a) !!! 0%fin);;
    Alarm_disable (timerIds (day a) !!! 1%fin);;
    Alarm_disable (timerIds (night a) !!! 0%fin);;
    Alarm_disable (timerIds (night a) !!! 1%fin)
  else
    Alarm_enable (timerIds (night a) !!! 0%fin);;
    Alarm_enable (timerIds (night a) !!! 1%fin);;
    Alarm_enable (timerIds (day a) !!! 0%fin);;
    Alarm_enable (timerIds (day a) !!! 1%fin).

Definition set_dayActive (b : bool) (a : StateContainer) : StateContainer :=
  set_currentState (mkOutputState b (nightActive (currentState a))) a.

Definition set_nightActive (b : bool) (a : StateContainer) : StateContainer :=
  set_currentState (mkOutputState (dayActive (currentState a)) b) a.

Definition startDay (saveOk : bool) : M unit :=
  modify (upd_activeSchedules (set_dayActive true));;
  a ← gets activeSchedules;
  saveSettings saveOk 0 a;; mret tt.

Definition endDay (saveOk : bool) : M unit :=
  modify (upd_activeSchedules (set_dayActive false));;
  a ← gets activeSchedules;
  saveSettings saveOk 0 a;; mret tt.

Definition startNight (saveOk : bool) : M unit :=
  modify (upd_activeSchedules (set_nightActive true));;
  a ← gets activeSchedules;
  saveSettings saveOk 0 a;; mret tt.

Definition endNight (saveOk : bool) : M unit :=
  modify (upd_activeSchedules (set_nightActive false));;
  a ← gets activeSchedules;
  saveSettings saveOk 0 a;; mret tt.

(** A firing: the pool calls the handler stored in the slot. *)
Definition call_handler (h : OnTick_t) (saveOk : bool) : M unit :=
  match h with
  | cb_startDay => startDay saveOk
  | cb_endDay => endDay saveOk
  | cb_startNight => startNight saveOk
  | cb_endNight => endNight saveOk
  end.

Definition setOutputState : M unit :=
  a ← gets activeSchedules;
  (if dayActive (currentState a)
   then let pwmOut := map (dayIntensity a) 0 100 0 1023 in analogWrite dayPin pwmOut
   else digitalWrite_LOW dayPin);;
  a ← gets activeSchedules;
  (if nightActive (currentState a)
   then let pwmOut := map (nightIntensity a) 0 100 0 1023 in analogWrite nightPin pwmOut
   else digitalWrite_LOW nightPin).

(** [x < 10 ? "0" + String(x) : String(x)] *)
Definition pad2 (x : Z) : string :=
  if x <? 10 then "0" +:+ WString.of_int x else WString.of_int x.

Definition getFormattedHourMinuteConcatenation (scheduleType : scheduleType_t)
    : M string :=
  a ← gets activeSchedules;
  let '(hoursStr, minuteStr) :=
    match scheduleType with
    | dayStart => (pad2 (startHour (day a)), pad2 (startMinute (day a)))
    | dayEnd => (pad2 (endHour (day a)), pad2 (endMinute (day a)))
    | nightStart => (pad2 (startHour (night a)), pad2 (startMinute (night a)))
    | nightEnd => (pad2 (endHour (night a)), pad2 (endMinute (night a)))
    | weekendDayStart =>
        if negb (startHour (weekendDay a) =? -1)
        then (pad2 (startHour (weekendDay a)), pad2 (startMinute (weekendDay a)))
        else (EmptyString, EmptyString)
    | weekendDayEnd =>
        if negb (startHour (weekendDay a) =? -1)
        then (pad2 (endHour (weekendDay a)), pad2 (endMinute (weekendDay a)))
        else (EmptyString, EmptyString)
    | weekendNightStart =>
        if negb (startHour (weekendNight a) =? -1)
        then (pad2 (startHour (weekendNight a)), pad2 (startMinute (weekendNight a)))
        else (EmptyString, EmptyString)
    | weekendNightEnd =>
        if negb (startHour (weekendNight a) =? -1)
        then (pad2 (endHour (weekendNight a)), pad2 (endMinute (weekendNight a)))
        else (EmptyString, EmptyString)
    end in
  mret (hoursStr +:+ ":" +:+ minuteStr).

(** ** The request surface *)

(** The arguments of the request being handled ([server.hasArg],
    [server.arg]); a missing argument reads as the empty string. *)
Section Server.
Variable server : gmap string string.

Definition server_hasArg (name : string) : bool := bool_decide (is_Some (server !! name)).
Definition server_arg (name : string) : string := default EmptyString (server !! name).

Definition serverHasRequiredArgs : bool :=
  server_hasArg "nightStart" && server_hasArg "nightEnd"
  && server_hasArg "dayStart" && server_hasArg "dayEnd"
  && server_hasArg "nightIntensity" && server_hasArg "dayIntensity"
  && WString.not_null (server_arg "nightStart") && WString.not_null (server_arg "nightEnd")
  && WString.not_null (server_arg "dayStart") && WString.not_null (server_arg "dayEnd")
  && WString.not_null (server_arg "nightIntensity")
  && WString.not_null (server_arg "dayIntensity").

Definition serverHasOptionalArgs : bool :=
  server_hasArg "weekendDayStart" && server_hasArg "weekendDayEnd"
  && server_hasArg "weekendNightStart" && server_hasArg "weekendNightEnd"
  && WString.not_null (server_arg "weekendDayStart")
  && WString.not_null (server_arg "weekendDayEnd")
  && WString.not_null (server_arg "weekendNightStart")
  && WString.not_null (server_arg "weekendNightEnd").

(** [server.arg(name).substring(0, 2).toInt()] and
    [server.arg(name).substring(3).toInt()] *)
Definition arg_hour (name : string) : Z :=
  WString.toInt (WString.substring 0 2 (server_arg name)).
Definition arg_minute (name : string) : Z :=
  WString.toInt (WString.substring_from 3 (server_arg name)).

End Server.

(** [server.send(code, content_type, content)] *)
Record Response := mkResponse {
  resp_code : Z;
  resp_type : string;
  resp_content : string
}.

(** [currentTime] is the text the clock gives, the day's name and
    [timeClient.getFormattedTime()]. *)
Definition handleGetTime (currentTime : string) : M Response :=
  a ← gets activeSchedules;
  ds ← getFormattedHourMinuteConcatenation dayStart;
  de ← getFormattedHourMinuteConcatenation dayEnd;
  ns ← getFormattedHourMinuteConcatenation nightStart;
  ne ← getFormattedHourMinuteConcatenation nightEnd;
  wds ← getFormattedHourMinuteConcatenation weekendDayStart;
  wde ← getFormattedHourMinuteConcatenation weekendDayEnd;
  wns ← getFormattedHourMinuteConcatenation weekendNightStart;
  wne ← getFormattedHourMinuteConcatenation weekendNightEnd;
  mret (mkResponse 200 "text/html; charset=utf-8"
    ("<P>Current Time: " +:+ currentTime +:+ "</p><p>Day schedule: " +:+ ds +:+ "-" +:+ de
     +:+ ", Intensity: " +:+ WString.of_int (dayIntensity a)
     +:+ "</p><p>Night schedule: " +:+ ns +:+ "-" +:+ ne
     +:+ ", Intensity: " +:+ WString.of_int (nightIntensity a)
     +:+ "</p><hr><p>Weekend day: " +:+ wds +:+ " - " +:+ wde
     +:+ "</p><p>Weekend night: " +:+ wns +:+ " - " +:+ wne +:+ "</p>")).

(** The handler's four local [Schedule]s are declared without an
    initialiser; [Locals] is what their memory holds then. *)
Record Locals := mkLocals {
  local_day : Schedule;
  local_night : Schedule;
  local_weekendDay : Schedule;
  local_weekendNight : Schedule
}.

Definition set_times (sh sm eh em : Z) (s : Schedule) : Schedule :=
  mkSchedule (timerIds s) sh sm eh em.

Definition set_startHour (sh : Z) (s : Schedule) : Schedule :=
  mkSchedule (timerIds s) sh (startMinute s) (endHour s) (endMinute s).

Definition handlePostSchedule (server : gmap string string) (locals : Locals)
    (saveOk : bool) (currentTime : string) : M Response :=
  if negb (server_hasArg server "gatekeeper")
     || negb (WString.not_null (server_arg server "gatekeeper"))
  then mret (mkResponse 400 "text/plain" "400: Invalid Request")
  else if String.eqb (server_arg server "gatekeeper") superSecretPassword
  then
    if serverHasRequiredArgs server
    then
      modify (upd_activeSchedules
                (set_nightIntensity (WString.toInt (server_arg server "nightIntensity"))));;
      modify (upd_activeSchedules
                (set_dayIntensity (WString.toInt (server_arg server "dayIntensity"))));;
      let dst := server_hasArg server "dst" && String.eqb (server_arg server "dst") "on" in
      let day := set_times (arg_hour server "dayStart") (arg_minute server "dayStart")
                   (arg_hour server "dayEnd") (arg_minute server "dayEnd")
                   (local_day locals) in
      let night := set_times (arg_hour server "nightStart") (arg_minute server "nightStart")
                     (arg_hour server "nightEnd") (arg_minute server "nightEnd")
                     (local_night locals) in
      let weekendDay := set_startHour (-1) (local_weekendDay locals) in
      let weekendNight := set_startHour (-1) (local_weekendNight locals) in
      let '(weekendDay, weekendNight) :=
        if serverHasOptionalArgs server
        then (set_times (arg_hour server "weekendDayStart")
                (arg_minute server "weekendDayStart")
                (arg_hour server "weekendDayEnd")
                (arg_minute server "weekendDayEnd") weekendDay,
              set_times (arg_hour server "weekendNightStart")
                (arg_minute server "weekendNightStart")
                (arg_hour server "weekendNightEnd")
                (arg_minute server "weekendNightEnd") weekendNight)
        else (weekendDay, weekendNight) in
      setSchedule day night dst weekendDay weekendNight;;
      a ← gets activeSchedules;
      ok ← saveSettings saveOk eepromAdress a;
      modify (set_currentStatePersisted ok);;
      handleGetTime currentTime
    else mret (mkResponse 400 "text/plain; charset=utf-8" "400: Invalid Request")
  else mret (mkResponse 401 "text/plain" "401: Unauthorized").

(** ** The control loop *)

(** Modelled from the spec: [Alarm.delay] is the library's tick; it calls
    the handler of every enabled alarm whose time matches.  Which slots'
    times match is the clock's matter: [due] lists their handles, each
    with the answer [EEPROM.commit()] gives during that handler. *)
Definition Alarm_delay (due : list (Z * bool)) : M unit :=
  foldr (λ d k,
           p ← gets Alarm;
           match TimeAlarms.slot p (fst d) with
           | Some a => when (isEnabled a) (call_handler (onTickHandler a) (snd d))
           | None => mret tt
           end;; k)
        (mret tt) due.

Record PostRequest := mkPostRequest {
  req_args : gmap string string;
  req_locals : Locals;
  req_saveOk : bool;
  req_clock : string
}.

(** What one pass of [loop] takes from outside. *)
Record LoopInput := mkLoopInput {
  in_due : list (Z * bool);
  in_millis : Z;
  in_weekday : Z;
  in_request : option PostRequest
}.

Definition interval : Z := 60000.

(** The first-run block of [loop]: the saved settings are read and, when
    they are there, installed. *)
Definition loop_firstRun : M unit :=
  fr ← gets firstRun;
  when fr (
    modify (set_firstRun false);;
    readSavedSettings eepromAdress;;
    a ← gets activeSchedules;
    when (persistedInEEPROM a) (
      setSchedule (day a) (night a) (dstActive a) (weekendDay a) (weekendNight a);;
      setOutputState)).

(** The once-a-minute block of [loop], past the clock update. *)
Definition loop_tick (wd : Z) : M unit :=
  a ← gets activeSchedules;
  when (initialized a) (
    when (negb (startHour (weekendDay a) =? -1)) (setWeekendTimerState wd);;
    setOutputState).

(** [loop]; of [server.handleClient()] the route that changes state,
    POST /time, is followed. *)
Definition loop (i : LoopInput) : M (option Response) :=
  Alarm_delay (in_due i);;
  loop_firstRun;;
  prev ← gets previousMillis;
  when (interval <=? (in_millis i - prev) `mod` 2 ^ 32) (
    modify (set_previousMillis (in_millis i));;
    timeClient_update;;
    loop_tick (in_weekday i));;
  match in_request i with
  | Some r =>
      resp ← handlePostSchedule (req_args r) (req_locals r) (req_saveOk r) (req_clock r);
      mret (Some resp)
  | None => mret None
  end.

(** The sketch's globals at reset: zeroed, [firstRun] true; the pool has
    [capacity] free slots and the EEPROM holds [stored]. *)
Definition zero_Schedule : Schedule := mkSchedule (vreplicate 6 0) 0 0 0 0.

Definition zero_StateContainer : StateContainer :=
  mkStateContainer false false false zero_Schedule zero_Schedule zero_Schedule
    zero_Schedule 0 0 (mkOutputState false false).

Definition reset (capacity : nat) (stored : StateContainer) : Globals :=
  mkGlobals zero_StateContainer (replicate capacity None) (mkEEPROM stored stored)
    0 (utcOffsetInSeconds + 0) true 0 false PinUnset PinUnset.

(** ** The read-only handlers *)

(** The double quote of the HTML attributes. *)
Definition dq : string := String "034"%char EmptyString.

Definition handleRoot : M Response :=
  dayStartTime ← getFormattedHourMinuteConcatenation dayStart;
  dayEndTime ← getFormattedHourMinuteConcatenation dayEnd;
  nightStartTime ← getFormattedHourMinuteConcatenation nightStart;
  nightEndTime ← getFormattedHourMinuteConcatenation nightEnd;
  weekendDayStartTime ← getFormattedHourMinuteConcatenation weekendDayStart;
  weekendDayEndTime ← getFormattedHourMinuteConcatenation weekendDayEnd;
  weekendNightStartTime ← getFormattedHourMinuteConcatenation weekendNightStart;
  weekendNightEndTime ← getFormattedHourMinuteConcatenation weekendNightEnd;
  a ← gets activeSchedules;
  mret (mkResponse 200 "text/html"
    ("<form action=" +:+ dq +:+ "/time" +:+ dq +:+ " method=" +:+ dq +:+ "POST" +:+ dq +:+
     ">Day start: <input type=" +:+ dq +:+ "time" +:+ dq +:+ " name=" +:+ dq +:+
     "dayStart" +:+ dq +:+ " value=" +:+ dq +:+ dayStartTime +:+ dq +:+
     "> - end: <input type=" +:+ dq +:+ "time" +:+ dq +:+ " name=" +:+ dq +:+ "dayEnd" +:+
     dq +:+ "value=" +:+ dq +:+ dayEndTime +:+ dq +:+ "><label for=" +:+ dq +:+
     "dayIntensity" +:+ dq +:+ ">Intensity (1-100):</label><input type=" +:+ dq +:+
     "number" +:+ dq +:+ " id=" +:+ dq +:+ "dayIntensity" +:+ dq +:+ " name=" +:+ dq +:+
     "dayIntensity" +:+ dq +:+ " min=" +:+ dq +:+ "1" +:+ dq +:+ " max=" +:+ dq +:+
     "100" +:+ dq +:+ " value=" +:+ dq +:+ WString.of_int (dayIntensity a) +:+ dq +:+
     "></br>Night start: <input type=" +:+ dq +:+ "time" +:+ dq +:+ " name=" +:+ dq +:+
     "nightStart" +:+ dq +:+ " value=" +:+ dq +:+ nightStartTime +:+ dq +:+
     "> - end: <input type=" +:+ dq +:+ "time" +:+ dq +:+ " name=" +:+ dq +:+
     "nightEnd" +:+ dq +:+ " value=" +:+ dq +:+ nightEndTime +:+ dq +:+ "><label for=" +:+
     dq +:+ "nightIntensity" +:+ dq +:+ ">Intensity (1-100):</label><input type=" +:+
     dq +:+ "number" +:+ dq +:+ " id=" +:+ dq +:+ "nightIntensity" +:+ dq +:+ " name=" +:+
     dq +:+ "nightIntensity" +:+ dq +:+ " min=" +:+ dq +:+ "1" +:+ dq +:+ " max=" +:+
     dq +:+ "100" +:+ dq +:+ " value=" +:+ dq +:+ WString.of_int (nightIntensity a) +:+
     dq +:+
     "></br><hr><p>Weekend schedule is optional. If omitted, regular schedule will be used.</p>Weekend day start: <input type=" +:+
     dq +:+ "time" +:+ dq +:+ " name=" +:+ dq +:+ "weekendDayStart" +:+ dq +:+
     " value=" +:+ dq +:+ weekendDayStartTime +:+ dq +:+ "> - end: <input type=" +:+ dq +:+
     "time" +:+ dq +:+ " name=" +:+ dq +:+ "weekendDayEnd" +:+ dq +:+ "value=" +:+ dq +:+
     weekendDayEndTime +:+ dq +:+ "></br>Weekend night start: <input type=" +:+ dq +:+
     "time" +:+ dq +:+ " name=" +:+ dq +:+ "weekendNightStart" +:+ dq +:+ " value=" +:+
     dq +:+ weekendNightStartTime +:+ dq +:+ "> - end: <input type=" +:+ dq +:+ "time" +:+
     dq +:+ " name=" +:+ dq +:+ "weekendNightEnd" +:+ dq +:+ "value=" +:+ dq +:+
     weekendNightEndTime +:+ dq +:+ "><hr></br><input type=" +:+ dq +:+ "checkbox" +:+
     dq +:+ " name=" +:+ dq +:+ "dst" +:+ dq +:+ " id=" +:+ dq +:+ "dst" +:+ dq +:+
     "><label for=" +:+ dq +:+ "dst" +:+ dq +:+
     ">Daylight savings time</label></br><input type=" +:+ dq +:+ "password" +:+ dq +:+
     " name=" +:+ dq +:+ "gatekeeper" +:+ dq +:+ " placeholder=" +:+ dq +:+ "Key" +:+
     dq +:+ "> - <input type=" +:+ dq +:+ "submit" +:+ dq +:+ " formmethod=" +:+ dq +:+
     "post" +:+ dq +:+ " value=" +:+ dq +:+ "Submit" +:+ dq +:+ "></form>")).

Definition handleNotFound : M Response :=
  mret (mkResponse 404 "text/plain; charset=utf-8" "404: Not found").

(** * The vocabulary of the properties *)

(** Relations between states, the shape of an installed pool, the loop as
    a state machine, and the running example. *)

(** [preserves R c]: running [c] takes every state to an [R]-related one. *)
Definition preserves {A} (R : relation Globals) (c : M A) : Prop :=
  ∀ g, R g (exec c g).

(** Only the alarm pool may differ. *)
Definition only_Alarm : relation Globals :=
  λ g g', g' = upd_Alarm (λ _, Alarm g') g.

(** The pool is the same, as is everything in [activeSchedules] that says
    which alarms there are: the schedules with their handles and
    [initialized]. *)
Definition same_alarms : relation Globals :=
  λ g g', Alarm g' = Alarm g
          ∧ initialized (activeSchedules g') = initialized (activeSchedules g)
          ∧ day (activeSchedules g') = day (activeSchedules g)
          ∧ night (activeSchedules g') = night (activeSchedules g)
          ∧ weekendDay (activeSchedules g') = weekendDay (activeSchedules g)
          ∧ weekendNight (activeSchedules g') = weekendNight (activeSchedules g)
          ∧ firstRun g' = firstRun g.

(** [activeSchedules] with the handles blanked. *)
Definition erase_ids (a : StateContainer) : StateContainer :=
  let blank := upd_timerIds (λ _, vreplicate 6 0) in
  upd_day blank (upd_night blank (upd_weekendDay blank (upd_weekendNight blank a))).

(** Nothing but the pool and the stored handles differs. *)
Definition same_but_alarms : relation Globals :=
  λ g g', upd_activeSchedules erase_ids (upd_Alarm (λ _, []) g')
          = upd_activeSchedules erase_ids (upd_Alarm (λ _, []) g).

Definition weekendActive (a : StateContainer) : bool :=
  negb (startHour (weekendDay a) =? -1).

(** The eleven weekend alarms in the order [setAlarms] creates them. *)
Definition weekend_alarms (a : StateContainer) : list AlarmClass :=
  [ mkAlarm (Some dowFriday) (startHour (day a)) (startMinute (day a)) 0 cb_startDay true;
    mkAlarm (Some dowFriday) (endHour (weekendDay a)) (endMinute (weekendDay a)) 0 cb_endDay true;
    mkAlarm (Some dowSaturday) (startHour (weekendDay a)) (startMinute (weekendDay a)) 0 cb_startDay true;
    mkAlarm (Some dowSaturday) (endHour (weekendDay a)) (endMinute (weekendDay a)) 0 cb_endDay true;
    mkAlarm (Some dowSunday) (startHour (weekendDay a)) (startMinute (weekendDay a)) 0 cb_startDay true;
    mkAlarm (Some dowSunday) (endHour (day a)) (endMinute (day a)) 0 cb_endDay true;
    mkAlarm (Some dowFriday) (startHour (weekendNight a)) (startMinute (weekendNight a)) 0 cb_startNight true;
    mkAlarm (Some dowSaturday) (endHour (weekendNight a)) (endMinute (weekendNight a)) 0 cb_endNight true;
    mkAlarm (Some dowSaturday) (startHour (weekendNight a)) (startMinute (weekendNight a)) 0 cb_startNight true;
    mkAlarm (Some dowSunday) (endHour (weekendNight a)) (endMinute (weekendNight a)) 0 cb_endNight true;
    mkAlarm (Some dowSunday) (startHour (night a)) (startMinute (night a)) 0 cb_startNight true ].

(** The four every-day alarms, armed or not. *)
Definition regular_alarms (armed : bool) (a : StateContainer) : list AlarmClass :=
  [ mkAlarm None (startHour (day a)) (startMinute (day a)) 0 cb_startDay armed;
    mkAlarm None (endHour (day a)) (endMinute (day a)) 0 cb_endDay armed;
    mkAlarm None (startHour (night a)) (startMinute (night a)) 0 cb_startNight armed;
    mkAlarm None (endHour (night a)) (endMinute (night a)) 0 cb_endNight armed ].

Definition installed_pool (armed : bool) (k : nat) (a : StateContainer)
    : list (option AlarmClass) :=
  (Some <$> ((if weekendActive a then weekend_alarms a else []) ++ regular_alarms armed a))
  ++ replicate k None.

Definition installed_ids (a : StateContainer) : Prop :=
  if weekendActive a
  then vec_to_list (timerIds (weekendDay a)) = [0; 1; 2; 3; 4; 5]
       ∧ take 5 (vec_to_list (timerIds (weekendNight a))) = [6; 7; 8; 9; 10]
       ∧ take 2 (vec_to_list (timerIds (day a))) = [11; 12]
       ∧ take 2 (vec_to_list (timerIds (night a))) = [13; 14]
  else take 2 (vec_to_list (timerIds (day a))) = [0; 1]
       ∧ take 2 (vec_to_list (timerIds (night a))) = [2; 3].

(** A schedule is installed: the state is initialized, the pool holds its
    alarms and nothing else, and the state's handles name them. *)
Definition installed (armed : bool) (g : Globals) : Prop :=
  initialized (activeSchedules g) = true
  ∧ installed_ids (activeSchedules g)
  ∧ ∃ k, Alarm g = installed_pool armed k (activeSchedules g).

Definition pool_free (g : Globals) : Prop :=
  Alarm g = replicate (length (Alarm g)) None.

(** Either nothing is allocated, or exactly the state's own alarms are. *)
Definition good (g : Globals) : Prop := pool_free g ∨ ∃ armed, installed armed g.

(** While the pool stays free. *)
Definition stays_free (k : nat) : relation Globals :=
  λ g g', Alarm g = replicate k None → Alarm g' = replicate k None.

(** The pool has as many slots as before, and [firstRun] is as it was. *)
Definition same_frame : relation Globals :=
  λ g g', length (Alarm g') = length (Alarm g) ∧ firstRun g' = firstRun g.

Definition is_weekend (wd : Z) : bool :=
  (wd =? dow_to_int dowFriday) || (wd =? dow_to_int dowSaturday)
  || (wd =? dow_to_int dowSunday).

(** The request passes the gatekeeper and has the required fields. *)
Definition accepted (server : gmap string string) : bool :=
  server_hasArg server "gatekeeper"
  && WString.not_null (server_arg server "gatekeeper")
  && String.eqb (server_arg server "gatekeeper") superSecretPassword
  && serverHasRequiredArgs server.

(** What the handler passes to [setSchedule]. *)
Definition parsed_day (server : gmap string string) (locals : Locals) : Schedule :=
  set_times (arg_hour server "dayStart") (arg_minute server "dayStart")
    (arg_hour server "dayEnd") (arg_minute server "dayEnd") (local_day locals).

Definition parsed_night (server : gmap string string) (locals : Locals) : Schedule :=
  set_times (arg_hour server "nightStart") (arg_minute server "nightStart")
    (arg_hour server "nightEnd") (arg_minute server "nightEnd") (local_night locals).

Definition parsed_dst (server : gmap string string) : bool :=
  server_hasArg server "dst" && String.eqb (server_arg server "dst") "on".

Definition parsed_weekendDay (server : gmap string string) (locals : Locals) : Schedule :=
  if serverHasOptionalArgs server
  then set_times (arg_hour server "weekendDayStart") (arg_minute server "weekendDayStart")
         (arg_hour server "weekendDayEnd") (arg_minute server "weekendDayEnd")
         (set_startHour (-1) (local_weekendDay locals))
  else set_startHour (-1) (local_weekendDay locals).

Definition parsed_weekendNight (server : gmap string string) (locals : Locals) : Schedule :=
  if serverHasOptionalArgs server
  then set_times (arg_hour server "weekendNightStart") (arg_minute server "weekendNightStart")
         (arg_hour server "weekendNightEnd") (arg_minute server "weekendNightEnd")
         (set_startHour (-1) (local_weekendNight locals))
  else set_startHour (-1) (local_weekendNight locals).

(** The state in which the handler calls [setSchedule]: the submitted
    intensities are already stored. *)
Definition with_intensities (server : gmap string string) (g : Globals) : Globals :=
  upd_activeSchedules (set_dayIntensity (WString.toInt (server_arg server "dayIntensity")))
    (upd_activeSchedules
       (set_nightIntensity (WString.toInt (server_arg server "nightIntensity"))) g).

Definition after_setSchedule (server : gmap string string) (locals : Locals)
    (g : Globals) : Globals :=
  exec (setSchedule (parsed_day server locals) (parsed_night server locals)
          (parsed_dst server) (parsed_weekendDay server locals)
          (parsed_weekendNight server locals))
       (with_intensities server g).

Definition step (g : Globals) (i : LoopInput) : Globals := exec (loop i) g.

(** The state after the passes of [loop] that [inputs] describes. *)
Definition run (inputs : list LoopInput) (g : Globals) : Globals := foldl step g inputs.

(** The live state takes over the stored snapshot. *)
Definition restore (g : Globals) : Globals :=
  let saved := eeprom_data (EEPROM g) in
  upd_activeSchedules (λ _, saved)
    (set_dstOffsetInSeconds (if dstActive saved then 3600 else 0) g).

(** What holds between two passes of the loop: the pool has its [cap]
    slots, and either no schedule has been installed and the pool is free,
    or the first run is over and the pool holds the installed schedule. *)
Definition Inv (cap : nat) (g : Globals) : Prop :=
  length (Alarm g) = cap
  ∧ ((initialized (activeSchedules g) = false ∧ pool_free g)
     ∨ (firstRun g = false ∧ ∃ armed, installed armed g)).

(** A schedule as submitted: the five arguments of [setSchedule], which the
    design document calls [applySchedule]. *)
Record Submission := mkSubmission {
  sub_day : Schedule;
  sub_night : Schedule;
  sub_dst : bool;
  sub_weekendDay : Schedule;
  sub_weekendNight : Schedule
}.

Definition applySchedule (s : Submission) : M unit :=
  setSchedule (sub_day s) (sub_night s) (sub_dst s) (sub_weekendDay s) (sub_weekendNight s).

(** The slots a submission needs. *)
Definition required_slots (s : Submission) : nat :=
  if startHour (sub_weekendDay s) =? -1 then 4%nat else 15%nat.

(** The four times of a [Schedule]. *)
Definition times (s : Schedule) : Z * Z * Z * Z :=
  (startHour s, startMinute s, endHour s, endMinute s).

(** The design document's scenario: day 07:00 to 19:00 at intensity 80,
    night 19:00 to 07:00 at intensity 30; and a weekend schedule, day
    09:30 to 21:00, night 22:00 to 06:00. *)
Module Example.

Definition day : Schedule := mkSchedule (vreplicate 6 0) 7 0 19 0.
Definition night : Schedule := mkSchedule (vreplicate 6 0) 19 0 7 0.
Definition weekendDay : Schedule := mkSchedule (vreplicate 6 0) 9 30 21 0.
Definition weekendNight : Schedule := mkSchedule (vreplicate 6 0) 22 0 6 0.
Definition none : Schedule := mkSchedule (vreplicate 6 0) (-1) 0 0 0.

Definition regular_only : Submission := mkSubmission day night false none none.
Definition with_weekend : Submission :=
  mkSubmission day night false weekendDay weekendNight.

(** The sketch after reset, with an ESP8266's twenty alarm slots and a
    blank EEPROM. *)
Definition fresh : Globals := reset 20 zero_StateContainer.

Definition locals : Locals := mkLocals none none none none.

(** A valid POST: the scenario's schedule, no weekend fields. *)
Definition post : gmap string string :=
  list_to_map
    [ ("gatekeeper", "zuul"); ("dayStart", "07:00"); ("dayEnd", "19:00");
      ("nightStart", "19:00"); ("nightEnd", "07:00");
      ("dayIntensity", "80"); ("nightIntensity", "30") ]%string.

(** The sketch with the scenario's schedule installed and saved. *)
Definition scenario : Globals :=
  exec (handlePostSchedule post locals true "Tisdag, 06:59:00") fresh.

(** A POST with all four weekend fields, and a pass of the loop that
    receives it. *)
Definition post_weekend : gmap string string :=
  list_to_map
    [ ("gatekeeper", "zuul"); ("dayStart", "07:00"); ("dayEnd", "19:00");
      ("nightStart", "19:00"); ("nightEnd", "07:00");
      ("dayIntensity", "80"); ("nightIntensity", "30");
      ("weekendDayStart", "09:30"); ("weekendDayEnd", "21:00");
      ("weekendNightStart", "22:00"); ("weekendNightEnd", "06:00") ]%string.

Definition weekend_pass : LoopInput :=
  mkLoopInput [] 1000 (dow_to_int dowThursday)
    (Some (mkPostRequest post_weekend locals true "Torsdag, 12:00:00")).

(** The scenario's POST with a day start of 24:00. *)
Definition post_hour24 : gmap string string := <["dayStart" := "24:00"]> post.

(** The scenario's POST with one of the four weekend fields. *)
Definition post_partial : gmap string string := <["weekendDayStart" := "09:30"]> post.

(** The sketch after that pass, and after a Saturday's tick. *)
Definition weekend_state : Globals := run [weekend_pass] fresh.

End Example.

(** [activeSchedules] is as it was. *)
Definition same_activeSchedules : relation Globals :=
  λ g g', activeSchedules g' = activeSchedules g.

(** The output state after the handler [h] has run. *)
Definition latch (h : OnTick_t) (o : OutputState) : OutputState :=
  match h with
  | cb_startDay => mkOutputState true (nightActive o)
  | cb_endDay => mkOutputState false (nightActive o)
  | cb_startNight => mkOutputState (dayActive o) true
  | cb_endNight => mkOutputState (dayActive o) false
  end.

(** Did some [EEPROM.commit()] of this pass of the loop report success? *)
Definition any_commit_ok (i : LoopInput) : bool :=
  existsb snd (in_due i)
  || match in_request i with Some r => req_saveOk r | None => false end.

Definition valid_times (s : Schedule) : Prop :=
  (0 ≤ startHour s ≤ 23 ∧ 0 ≤ startMinute s ≤ 59)
  ∧ (0 ≤ endHour s ≤ 23 ∧ 0 ≤ endMinute s ≤ 59).

(** How [handlePostSchedule] reads a form field ["HH:MM"]. *)
Definition read_time (field : string) : Z * Z :=
  (WString.toInt (WString.substring 0 2 field),
   WString.toInt (WString.substring_from 3 field)).

(** How [getFormattedHourMinuteConcatenation] writes one. *)
Definition write_time (h m : Z) : string := pad2 h +:+ ":" +:+ pad2 m.

Definition weekend_fields : list string :=
  ["weekendDayStart"; "weekendDayEnd"; "weekendNightStart"; "weekendNightEnd"]%string.

(** The six fields a POST must carry. *)
Definition required_fields : list string :=
  ["nightStart"; "nightEnd"; "dayStart"; "dayEnd"; "nightIntensity"; "dayIntensity"]%string.

(** A restart: the globals are as at reset and the EEPROM holds what was
    committed to the flash. *)
Definition reboot (capacity : nat) (g : Globals) : Globals :=
  reset capacity (eeprom_flash (EEPROM g)).

(** Can the alarm fire on day [d]?  It must be enabled, and be an
    every-day alarm or a weekly one of that day. *)
Definition may_fire_on (d : timeDayOfWeek_t) (a : AlarmClass) : bool :=
  isEnabled a
  && match alarmDow a with
     | None => true
     | Some d' => bool_decide (d' = d)
     end.

(** The alarms of the pool that can fire on day [d]. *)
Definition firing_on (d : timeDayOfWeek_t) (p : list (option AlarmClass)) : list AlarmClass :=
  filter (λ a, may_fire_on d a = true) (omap id p).

(** All 256 characters. *)
Definition all_ascii : list ascii := ascii_of_nat <$> seq 0 256.

(** What a user has set and what the outputs latch: everything of the
    state but the alarm handles and the two flags. *)
Definition settings (a : StateContainer)
    : (Z * Z * Z * Z) * (Z * Z * Z * Z) * (Z * Z * Z * Z) * (Z * Z * Z * Z)
      * bool * Z * Z * OutputState :=
  (times (day a), times (night a), times (weekendDay a), times (weekendNight a),
   dstActive a, dayIntensity a, nightIntensity a, currentState a).

(** What [setOutputState] drives a pin with. *)
Definition drive (active : bool) (intensity : Z) : PinOutput :=
  if active then PinPWM (map intensity 0 100 0 1023) else PinLow.

(** The EEPROM is as it was. *)
Definition same_EEPROM : relation Globals := λ g g', EEPROM g' = EEPROM g.

(** Is [z] an hour (or minute) the two-character reading of a form field
    can give? *)
Definition two_char_range (z : Z) : Prop := -9 ≤ z ≤ 99.

(** More requests for the running example. *)
Module Example2.

(** All four weekend fields, the weekend day starting at an hour that
    reads as [-1]. *)
Definition post_minus_one : gmap string string :=
  <["weekendDayStart" := "-1:30"]> Example.post_weekend.

(** The scenario's POST with daylight saving ticked. *)
Definition post_dst : gmap string string := <["dst" := "on"]> Example.post.

(** A pass of the loop in which nothing is due, nothing is posted and
    less than a minute has gone by. *)
Definition idle_pass : LoopInput := mkLoopInput [] 30000 (dow_to_int dowTuesday) None.

(** The scenario's POST asking for a day intensity of 150. *)
Definition post_bright : gmap string string := <["dayIntensity" := "150"]> Example.post.

(** A pass of the loop that receives the scenario's POST. *)
Definition scenario_pass : LoopInput :=
  mkLoopInput [] 1000 (dow_to_int dowTuesday)
    (Some (mkPostRequest Example.post Example.locals true "Tisdag, 06:59:00")).

End Example2.

(** Does the handler belong to the day channel (or to the night one)? *)
Definition day_channel (h : OnTick_t) : bool :=
  match h with
  | cb_startDay | cb_endDay => true
  | cb_startNight | cb_endNight => false
  end.

(** The two output pins are as they were. *)
Definition same_pins : relation Globals :=
  λ g g', out_D1 g' = out_D1 g ∧ out_D2 g' = out_D2 g.

(** Without a weekend override the every-day alarms of an installed
    schedule are armed. *)
Definition regular_armed (g : Globals) : Prop :=
  ∀ armed, installed armed g → weekendActive (activeSchedules g) = false → armed = true.

(** The alarms that are to fire on day [d] of a week with a weekend
    override, in the order of their slots. *)
Definition week_plan (d : timeDayOfWeek_t) (a : StateContainer) : list AlarmClass :=
  match d with
  | dowFriday =>
      [ mkAlarm (Some dowFriday) (startHour (day a)) (startMinute (day a)) 0 cb_startDay true;
        mkAlarm (Some dowFriday) (endHour (weekendDay a)) (endMinute (weekendDay a)) 0
          cb_endDay true;
        mkAlarm (Some dowFriday) (startHour (weekendNight a)) (startMinute (weekendNight a)) 0
          cb_startNight true ]
  | dowSaturday =>
      [ mkAlarm (Some dowSaturday) (startHour (weekendDay a)) (startMinute (weekendDay a)) 0
          cb_startDay true;
        mkAlarm (Some dowSaturday) (endHour (weekendDay a)) (endMinute (weekendDay a)) 0
          cb_endDay true;
        mkAlarm (Some dowSaturday) (endHour (weekendNight a)) (endMinute (weekendNight a)) 0
          cb_endNight true;
        mkAlarm (Some dowSaturday) (startHour (weekendNight a)) (startMinute (weekendNight a)) 0
          cb_startNight true ]
  | dowSunday =>
      [ mkAlarm (Some dowSunday) (startHour (weekendDay a)) (startMinute (weekendDay a)) 0
          cb_startDay true;
        mkAlarm (Some dowSunday) (endHour (day a)) (endMinute (day a)) 0 cb_endDay true;
        mkAlarm (Some dowSunday) (endHour (weekendNight a)) (endMinute (weekendNight a)) 0
          cb_endNight true;
        mkAlarm (Some dowSunday) (startHour (night a)) (startMinute (night a)) 0
          cb_startNight true ]
  | _ => regular_alarms true a
  end.

(** * Lemmas *)

(** ** Frame reasoning for the monad *)

Section Frame.
Context (R : relation Globals) `{!PreOrder R}.

Lemma preserves_ret {A} (x : A) : preserves R (mret x).
Proof. intros g. reflexivity. Qed.

Lemma preserves_gets {A} (f : Globals → A) : preserves R (gets f).
Proof. intros g. reflexivity. Qed.

Lemma preserves_bind {A B} (c : M A) (f : A → M B) :
  preserves R c → (∀ x, preserves R (f x)) → preserves R (c ≫= f).
Proof.
  intros Hc Hf g. unfold exec, mbind, M_bind.
  specialize (Hc g). unfold exec in Hc.
  destruct (c g) as [x g1]. simpl in *.
  etrans; [exact Hc|]. apply Hf.
Qed.

Lemma preserves_modify (f : Globals → Globals) :
  (∀ g, R g (f g)) → preserves R (modify f).
Proof. intros H g. apply H. Qed.

Lemma preserves_when (b : bool) (c : M unit) :
  preserves R c → preserves R (when b c).
Proof. intros H. destruct b; [exact H|apply preserves_ret]. Qed.

Lemma preserves_foldr {A} (f : A → M unit → M unit) (l : list A) :
  (∀ x k, preserves R k → preserves R (f x k)) →
  preserves R (foldr f (mret tt) l).
Proof.
  intros H. induction l as [|x l IH]; simpl; [apply preserves_ret|by apply H].
Qed.

End Frame.

Lemma exec_bind {A B} (c : M A) (f : A → M B) g :
  exec (c ≫= f) g = exec (f (eval c g)) (exec c g).
Proof. unfold exec, eval, mbind, M_bind. by destruct (c g). Qed.

Lemma eval_bind {A B} (c : M A) (f : A → M B) g :
  eval (c ≫= f) g = eval (f (eval c g)) (exec c g).
Proof. unfold exec, eval, mbind, M_bind. by destruct (c g). Qed.

Global Instance only_Alarm_preorder : PreOrder only_Alarm.
Proof.
  split.
  - intros [??????????]. reflexivity.
  - intros g1 g2 g3. unfold only_Alarm. intros H1 H2.
    rewrite H2, H1. reflexivity.
Qed.

Global Instance same_alarms_preorder : PreOrder same_alarms.
Proof.
  split.
  - by intros g.
  - intros g1 g2 g3 (?&?&?&?&?&?&?) (?&?&?&?&?&?&?).
    repeat split; etrans; eauto.
Qed.

Global Instance same_but_alarms_preorder : PreOrder same_but_alarms.
Proof.
  split.
  - by intros g.
  - intros g1 g2 g3 H1 H2. unfold same_but_alarms in *. by rewrite H2.
Qed.

Ltac frame_inst := try (match goal with |- PreOrder _ => apply _ end).

Ltac frame :=
  repeat match goal with
    | |- preserves _ (mret _) => apply preserves_ret; frame_inst
    | |- preserves _ (gets _) => apply preserves_gets; frame_inst
    | |- preserves _ (when _ _) => apply preserves_when; frame_inst
    | |- preserves _ (_ ≫= _) => apply preserves_bind; frame_inst; [|intros ?]
    | |- preserves _ (foldr _ _ _) => apply preserves_foldr; frame_inst; intros ? ? ?; cbv beta
    | |- preserves _ (if ?b then _ else _) => destruct b
    | |- preserves _ (match ?x with _ => _ end) => destruct x
    | H : preserves ?R ?k |- preserves ?R ?k => exact H
    end.

(** *** What the pieces leave alone *)

Lemma Alarm_alarmRepeat_only_Alarm DOW H Mi S h :
  preserves only_Alarm (Alarm_alarmRepeat DOW H Mi S h).
Proof.
  intros [??????????]. unfold exec, Alarm_alarmRepeat. simpl.
  by destruct (TimeAlarms.create _ _).
Qed.

Lemma Alarm_alarmRepeat_same_but_alarms DOW H Mi S h :
  preserves same_but_alarms (Alarm_alarmRepeat DOW H Mi S h).
Proof.
  intros [??????????]. unfold exec, Alarm_alarmRepeat. simpl.
  by destruct (TimeAlarms.create _ _).
Qed.

Lemma upd_Alarm_only_Alarm f : preserves only_Alarm (modify (upd_Alarm f)).
Proof. by intros [??????????]. Qed.

Lemma clearOldTimers_only_Alarm ids size :
  preserves only_Alarm (clearOldTimers ids size).
Proof. unfold clearOldTimers. frame. apply upd_Alarm_only_Alarm. Qed.

Lemma setSchedule_teardown_only_Alarm : preserves only_Alarm setSchedule_teardown.
Proof. unfold setSchedule_teardown. frame; apply clearOldTimers_only_Alarm. Qed.

Lemma erase_ids_upd_timerIds f a :
  erase_ids (upd_day (upd_timerIds f) a) = erase_ids a
  ∧ erase_ids (upd_night (upd_timerIds f) a) = erase_ids a
  ∧ erase_ids (upd_weekendDay (upd_timerIds f) a) = erase_ids a
  ∧ erase_ids (upd_weekendNight (upd_timerIds f) a) = erase_ids a.
Proof. by destruct a. Qed.

Lemma setAlarms_same_but_alarms w : preserves same_but_alarms (setAlarms w).
Proof.
  unfold setAlarms, store_timerId. frame;
    try apply Alarm_alarmRepeat_same_but_alarms;
    apply preserves_modify; intros [a ?????????];
    unfold same_but_alarms; simpl; f_equal; apply erase_ids_upd_timerIds.
Qed.

Lemma saveSettings_same_alarms saveOk addr s :
  preserves same_alarms (saveSettings saveOk addr s).
Proof.
  intros [[] ? ? ? ? ? ? ? ? ?]. destruct saveOk; by vm_compute.
Qed.

Lemma call_handler_same_alarms h saveOk :
  preserves same_alarms (call_handler h saveOk).
Proof.
  destruct h; simpl; unfold startDay, endDay, startNight, endNight; frame;
    try apply saveSettings_same_alarms;
    apply preserves_modify; by intros [[] ? ? ? ? ? ? ? ? ?].
Qed.

Lemma Alarm_delay_same_alarms due : preserves same_alarms (Alarm_delay due).
Proof.
  unfold Alarm_delay. frame. apply call_handler_same_alarms.
Qed.

Lemma setOutputState_same_alarms : preserves same_alarms setOutputState.
Proof.
  unfold setOutputState, analogWrite, digitalWrite_LOW. frame;
    apply preserves_modify; by intros [[] ? ? ? ? ? ? ? ? ?].
Qed.

(** ** The pool of an installed schedule *)

Lemma slot_replicate k ID : TimeAlarms.slot (replicate k None) ID = None.
Proof.
  unfold TimeAlarms.slot. destruct (0 <=? ID); [|done].
  destruct (replicate k None !! Z.to_nat ID) as [o|] eqn:E; [|done].
  apply lookup_replicate in E as [-> _]. done.
Qed.

Lemma free_replicate k ID : TimeAlarms.free ID (replicate k None) = replicate k None.
Proof. unfold TimeAlarms.free. by rewrite slot_replicate. Qed.

Lemma enable_replicate k ID : TimeAlarms.enable ID (replicate k None) = replicate k None.
Proof. unfold TimeAlarms.enable. by rewrite slot_replicate. Qed.

Lemma disable_replicate k ID : TimeAlarms.disable ID (replicate k None) = replicate k None.
Proof. unfold TimeAlarms.disable. by rewrite slot_replicate. Qed.

Lemma count_replicate k : TimeAlarms.count (replicate k None) = 0%nat.
Proof.
  unfold TimeAlarms.count. induction k as [|k IH]; [done|].
  cbn [replicate]. rewrite filter_cons_False; [done|naive_solver].
Qed.

Lemma count_app p q :
  TimeAlarms.count (p ++ q) = (TimeAlarms.count p + TimeAlarms.count q)%nat.
Proof. unfold TimeAlarms.count. by rewrite filter_app, length_app. Qed.

Global Instance stays_free_preorder k : PreOrder (stays_free k).
Proof.
  split; [intros g H; exact H|]. intros g1 g2 g3 H1 H2 H. by apply H2, H1.
Qed.

Lemma setSchedule_teardown_stays_free k :
  preserves (stays_free k) setSchedule_teardown.
Proof.
  unfold setSchedule_teardown, clearOldTimers, Alarm_free. frame;
    apply preserves_modify; intros [] Hp; simpl in *; subst; apply free_replicate.
Qed.

Lemma setWeekendTimerState_stays_free k wd :
  preserves (stays_free k) (setWeekendTimerState wd).
Proof.
  unfold setWeekendTimerState, Alarm_enable, Alarm_disable. frame;
    apply preserves_modify; intros [] Hp; simpl in *; subst;
    first [apply enable_replicate|apply disable_replicate].
Qed.

Lemma only_Alarm_eq g g' p : only_Alarm g g' → Alarm g' = p → g' = upd_Alarm (λ _, p) g.
Proof. unfold only_Alarm. intros -> <-. by destruct g. Qed.

(** Tearing down with nothing allocated changes nothing, whatever handles
    the state holds. *)
Lemma teardown_pool_free g :
  pool_free g → exec setSchedule_teardown g = g.
Proof.
  intros H.
  pose proof (setSchedule_teardown_only_Alarm g) as Ho.
  pose proof (setSchedule_teardown_stays_free _ g H) as Hs.
  apply (only_Alarm_eq _ _ _ Ho) in Hs. rewrite Hs.
  unfold pool_free in H. rewrite <- H. by destruct g.
Qed.

(** *** The pool keeps its size *)

Global Instance same_frame_preorder : PreOrder same_frame.
Proof.
  split; [by intros g|]. intros g1 g2 g3 [H1 H1'] [H2 H2'].
  unfold same_frame in *. split; congruence.
Qed.

Lemma create_length a p : length (snd (TimeAlarms.create a p)) = length p.
Proof.
  unfold TimeAlarms.create. destruct (list_find _ p) as [[i o]|]; [|done].
  apply length_insert.
Qed.

Lemma free_length ID p : length (TimeAlarms.free ID p) = length p.
Proof. unfold TimeAlarms.free. destruct (TimeAlarms.slot p ID); [apply length_insert|done]. Qed.

Lemma enable_length ID p : length (TimeAlarms.enable ID p) = length p.
Proof. unfold TimeAlarms.enable. destruct (TimeAlarms.slot p ID); [apply length_insert|done]. Qed.

Lemma disable_length ID p : length (TimeAlarms.disable ID p) = length p.
Proof. unfold TimeAlarms.disable. destruct (TimeAlarms.slot p ID); [apply length_insert|done]. Qed.

Lemma Alarm_alarmRepeat_same_frame DOW H Mi S h :
  preserves same_frame (Alarm_alarmRepeat DOW H Mi S h).
Proof.
  intros g. unfold same_frame, exec, Alarm_alarmRepeat.
  pose proof (create_length (mkAlarm DOW H Mi S h true) (Alarm g)) as Hl.
  destruct (TimeAlarms.create _ _). by destruct g.
Qed.

Lemma EEPROM_commit_same_frame ok : preserves same_frame (EEPROM_commit ok).
Proof. intros g. by destruct ok, g. Qed.

(** Closes the leaves [frame] leaves for [same_frame]. *)
Ltac frame_leaf :=
  first
    [ apply Alarm_alarmRepeat_same_frame
    | apply EEPROM_commit_same_frame
    | apply preserves_modify; intros [[] ? ? ? ? ? ? ? ? ?]; unfold same_frame; cbn;
      split; first [ reflexivity | apply free_length | apply enable_length
                   | apply disable_length ] ].

Lemma setSchedule_same_frame d n dst wd wn :
  preserves same_frame (setSchedule d n dst wd wn).
Proof.
  unfold setSchedule, setSchedule_teardown, setSchedule_install, setAlarms,
    store_timerId, clearOldTimers, Alarm_free, timeClient_setTimeOffset, timeClient_update.
  frame; frame_leaf.
Qed.

Lemma saveSettings_same_frame ok addr s : preserves same_frame (saveSettings ok addr s).
Proof. unfold saveSettings, EEPROM_put. frame; frame_leaf. Qed.

Lemma call_handler_same_frame h ok : preserves same_frame (call_handler h ok).
Proof.
  destruct h; simpl; unfold startDay, endDay, startNight, endNight; frame;
    first [apply saveSettings_same_frame | frame_leaf].
Qed.

Lemma setOutputState_same_frame : preserves same_frame setOutputState.
Proof. unfold setOutputState, analogWrite, digitalWrite_LOW. frame; frame_leaf. Qed.

Lemma setWeekendTimerState_same_frame wd : preserves same_frame (setWeekendTimerState wd).
Proof. unfold setWeekendTimerState, Alarm_enable, Alarm_disable. frame; frame_leaf. Qed.

Lemma getFormattedHourMinuteConcatenation_id t g :
  exec (getFormattedHourMinuteConcatenation t) g = g.
Proof.
  symmetry. revert g. change (preserves eq (getFormattedHourMinuteConcatenation t)).
  unfold getFormattedHourMinuteConcatenation. frame.
Qed.

Lemma handleGetTime_id clock g : exec (handleGetTime clock) g = g.
Proof.
  unfold handleGetTime. rewrite !exec_bind, !getFormattedHourMinuteConcatenation_id.
  reflexivity.
Qed.

(** *** Teardown and installation *)

Ltac open_schedule s :=
  let v := fresh "ids" in
  destruct s as [v ?sh ?sm ?eh ?em]; inv_vec v; do 6 intro.

Ltac open_state g :=
  let d := fresh "d" in let n := fresh "n" in
  let wd := fresh "wd" in let wn := fresh "wn" in
  destruct g as [[?pe ?ini ?dsta d n wd wn ?di ?ni ?cs] ?pool ?ee ?off ?toff ?fr ?pm ?csp ?o1 ?o2];
  open_schedule d; open_schedule n; open_schedule wd; open_schedule wn.

(** Is [z] the [-1] sentinel?  In each case left, [z =? -1] computes. *)
Ltac case_sentinel z :=
  let E := fresh "E" in
  destruct (z =? -1) eqn:E;
  [ apply Z.eqb_eq in E; subst z
  | destruct z as [|?|[?|?|]]; try discriminate E; clear E ].

Lemma teardown_installed armed g :
  installed armed g →
  exec setSchedule_teardown g = upd_Alarm (λ _, replicate (length (Alarm g)) None) g.
Proof.
  open_state g. intros (Hini & Hids & k & Hp).
  cbn in Hini, Hp. subst.
  unfold installed_ids, installed_pool, weekendActive in *.
  cbn in Hids. cbn [Alarm].
  rewrite length_app, length_replicate, length_fmap, length_app.
  case_sentinel sh1; cbn in Hids; destruct_and?; simplify_eq;
    vm_compute; reflexivity.
Qed.

(** From a good state the teardown frees the whole pool. *)
Lemma teardown_good g :
  good g →
  exec setSchedule_teardown g = upd_Alarm (λ _, replicate (length (Alarm g)) None) g.
Proof.
  intros [Hf|[armed Hi]].
  - rewrite teardown_pool_free by done. unfold pool_free in Hf.
    rewrite <- Hf. by destruct g.
  - by eapply teardown_installed.
Qed.

Lemma install_free g k d n dst wd wn :
  Alarm g = replicate (15 + k) None →
  installed true (exec (setSchedule_install d n dst wd wn) g).
Proof.
  open_schedule d; open_schedule n; open_schedule wd; open_schedule wn.
  destruct g as [[] ? ? ? ? ? ? ? ? ?]. cbn. intros ->.
  unfold installed, installed_ids, installed_pool, weekendActive.
  case_sentinel sh1;
    (split; [by vm_compute|]); (split; [by vm_compute|]);
    first [ by (exists (11 + k)%nat; vm_compute) | by (exists k; vm_compute) ].
Qed.

(** [setSchedule] from a good state with room for fifteen alarms installs
    the new schedule. *)
Lemma setSchedule_installed g d n dst wd wn :
  good g → (15 ≤ length (Alarm g))%nat →
  installed true (exec (setSchedule d n dst wd wn) g).
Proof.
  intros Hg Hc. unfold setSchedule. rewrite exec_bind, teardown_good by done.
  apply (install_free _ (length (Alarm g) - 15)).
  destruct g; unfold upd_Alarm; cbn [Alarm] in *. f_equal. lia.
Qed.

Lemma installed_good armed g : installed armed g → good g.
Proof. right. eauto. Qed.

Lemma handleGetTime_code clock g : resp_code (eval (handleGetTime clock) g) = 200.
Proof. unfold handleGetTime. rewrite !eval_bind. reflexivity. Qed.

Lemma saveSettings_eval ok addr s g : eval (saveSettings ok addr s) g = ok.
Proof. by destruct ok. Qed.

(** *** The once-a-minute toggle *)

Lemma setWeekendTimerState_installed armed g wd :
  installed armed g → weekendActive (activeSchedules g) = true →
  installed (negb (is_weekend wd)) (exec (setWeekendTimerState wd) g).
Proof.
  open_state g. intros (Hini & Hids & k & Hp) Hw.
  cbn in Hini, Hp. subst.
  unfold installed_ids, installed_pool, weekendActive in *.
  cbn in Hids, Hw.
  case_sentinel sh1; try discriminate Hw; cbn in Hids; destruct_and?; simplify_eq;
    unfold setWeekendTimerState, is_weekend; rewrite exec_bind; cbv beta;
    destruct (_ || _);
    (split; [by vm_compute|]); (split; [by vm_compute|]); exists k; by vm_compute.
Qed.

(** *** Requests *)

Lemma handlePostSchedule_accepted server locals saveOk clock g :
  accepted server = true →
  let g2 := after_setSchedule server locals g in
  exec (handlePostSchedule server locals saveOk clock) g
  = set_currentStatePersisted saveOk
      (exec (saveSettings saveOk eepromAdress (activeSchedules g2)) g2)
  ∧ resp_code (eval (handlePostSchedule server locals saveOk clock) g) = 200.
Proof.
  unfold accepted. intros H. repeat (apply andb_prop in H as [H ?]).
  unfold handlePostSchedule, after_setSchedule, parsed_weekendDay, parsed_weekendNight,
    with_intensities.
  rewrite H, H0, H1, H2. cbn [negb orb].
  destruct (serverHasOptionalArgs server);
    (split;
     [ rewrite !exec_bind, handleGetTime_id, ?eval_bind, saveSettings_eval; reflexivity
     | rewrite !eval_bind; apply handleGetTime_code ]).
Qed.

Lemma handlePostSchedule_rejected server locals saveOk clock g :
  accepted server = false →
  exec (handlePostSchedule server locals saveOk clock) g = g
  ∧ (resp_code (eval (handlePostSchedule server locals saveOk clock) g) = 400
     ∨ resp_code (eval (handlePostSchedule server locals saveOk clock) g) = 401).
Proof.
  unfold accepted, handlePostSchedule. intros H.
  destruct (server_hasArg server "gatekeeper"); cbn in *; [|by auto].
  destruct (WString.not_null _); cbn in *; [|by auto].
  destruct (String.eqb _ superSecretPassword); cbn in *; [|by auto].
  rewrite H. by auto.
Qed.

(** ** The control loop as a state machine *)

Lemma readSavedSettings_exec addr g :
  exec (readSavedSettings addr) g
  = if persistedInEEPROM (eeprom_data (EEPROM g)) then restore g else g.
Proof.
  unfold readSavedSettings. rewrite exec_bind. cbn [EEPROM_get eval exec gets fst snd].
  by destruct (persistedInEEPROM _).
Qed.

Lemma loop_firstRun_exec g :
  exec loop_firstRun g
  = if firstRun g
    then let g2 := exec (readSavedSettings eepromAdress) (set_firstRun false g) in
         let a := activeSchedules g2 in
         if persistedInEEPROM a
         then exec setOutputState
                (exec (setSchedule (day a) (night a) (dstActive a) (weekendDay a)
                         (weekendNight a)) g2)
         else g2
    else g.
Proof.
  unfold loop_firstRun. rewrite exec_bind. cbn [eval exec gets fst snd].
  destruct (firstRun g); [|done]. cbn [when].
  rewrite !exec_bind. cbn [eval exec gets modify fst snd].
  destruct (persistedInEEPROM _); [|done]. cbn [when].
  by rewrite exec_bind.
Qed.

Lemma loop_tick_exec wd g :
  exec (loop_tick wd) g
  = if initialized (activeSchedules g)
    then exec setOutputState
           (if weekendActive (activeSchedules g)
            then exec (setWeekendTimerState wd) g else g)
    else g.
Proof.
  unfold loop_tick, weekendActive. rewrite exec_bind. cbn [eval exec gets fst snd].
  destruct (initialized _); [|done]. cbn [when]. rewrite exec_bind.
  by destruct (negb _).
Qed.

Lemma loop_exec i g :
  exec (loop i) g
  = let g1 := exec (Alarm_delay (in_due i)) g in
    let g2 := exec loop_firstRun g1 in
    let g3 := if interval <=? (in_millis i - previousMillis g2) `mod` 2 ^ 32
              then exec (loop_tick (in_weekday i)) (set_previousMillis (in_millis i) g2)
              else g2 in
    match in_request i with
    | Some r => exec (handlePostSchedule (req_args r) (req_locals r) (req_saveOk r)
                        (req_clock r)) g3
    | None => g3
    end.
Proof.
  unfold loop. rewrite !exec_bind. cbn [eval exec gets fst snd]. cbv zeta.
  destruct (interval <=? _); cbn [when];
    destruct (in_request i); rewrite ?exec_bind; reflexivity.
Qed.

Lemma Inv_good cap g : Inv cap g → good g.
Proof. intros [_ [[_ ?]|[_ ?]]]; [by left|by right]. Qed.

Lemma same_alarms_installed armed g g' :
  same_alarms g g' → installed armed g → installed armed g'.
Proof.
  intros (HA & Hi & Hd & Hn & Hwd & Hwn & Hf) (H1 & H2 & k & H3).
  unfold installed, installed_ids, installed_pool, weekendActive, weekend_alarms,
    regular_alarms in *.
  rewrite HA, Hi, Hd, Hn, Hwd, Hwn. eauto.
Qed.

Lemma same_alarms_Inv cap g g' : same_alarms g g' → Inv cap g → Inv cap g'.
Proof.
  intros Hs [Hl H]. pose proof Hs as (HA & Hi & Hd & Hn & Hwd & Hwn & Hf).
  split; [by rewrite HA|].
  destruct H as [[? Hp]|[? [armed ?]]]; [left|right].
  - unfold pool_free in *. rewrite HA, Hi. done.
  - rewrite Hf. eauto using same_alarms_installed.
Qed.

Lemma setSchedule_Inv cap g d n dst wd wn :
  (15 ≤ cap)%nat → length (Alarm g) = cap → good g → firstRun g = false →
  Inv cap (exec (setSchedule d n dst wd wn) g).
Proof.
  intros Hc Hl Hg Hf. destruct (setSchedule_same_frame d n dst wd wn g) as [Hl' Hf'].
  split; [congruence|]. right. split; [congruence|].
  exists true. apply setSchedule_installed; [done|lia].
Qed.

Lemma loop_firstRun_Inv cap g :
  (15 ≤ cap)%nat → Inv cap g →
  Inv cap (exec loop_firstRun g) ∧ firstRun (exec loop_firstRun g) = false.
Proof.
  intros Hc HI. rewrite loop_firstRun_exec.
  destruct (firstRun g) eqn:Hfr; [|done].
  destruct HI as [Hl [[Hini Hfree]|[? _]]]; [|congruence].
  rewrite readSavedSettings_exec. cbv zeta.
  change (EEPROM (set_firstRun false g)) with (EEPROM g).
  set (g2 := if persistedInEEPROM (eeprom_data _) then _ else _).
  assert (Alarm g2 = Alarm g ∧ firstRun g2 = false) as [HA Hf2].
  { subst g2. destruct (persistedInEEPROM _); by destruct g. }
  destruct (persistedInEEPROM (activeSchedules g2)) eqn:Hp.
  - assert (Inv cap (exec (setSchedule (day (activeSchedules g2)) (night (activeSchedules g2))
        (dstActive (activeSchedules g2)) (weekendDay (activeSchedules g2))
        (weekendNight (activeSchedules g2))) g2)) as HI.
    { apply setSchedule_Inv; [done|congruence| |done].
      left. unfold pool_free in *. by rewrite HA. }
    split.
    + eapply same_alarms_Inv; [apply setOutputState_same_alarms|done].
    + destruct (setOutputState_same_frame (exec (setSchedule (day (activeSchedules g2))
        (night (activeSchedules g2)) (dstActive (activeSchedules g2))
        (weekendDay (activeSchedules g2)) (weekendNight (activeSchedules g2))) g2)) as [_ ->].
      by destruct (setSchedule_same_frame (day (activeSchedules g2))
        (night (activeSchedules g2)) (dstActive (activeSchedules g2))
        (weekendDay (activeSchedules g2)) (weekendNight (activeSchedules g2)) g2) as [_ ->].
  - split; [|done]. split; [congruence|]. left.
    unfold pool_free in *. rewrite HA. split; [|done].
    clear HA Hf2. subst g2.
    destruct (persistedInEEPROM (eeprom_data (EEPROM g))) eqn:Hs.
    + destruct g; cbn in *. congruence.
    + by destruct g.
Qed.

Lemma loop_tick_Inv cap wd g :
  Inv cap g →
  Inv cap (exec (loop_tick wd) g) ∧ firstRun (exec (loop_tick wd) g) = firstRun g.
Proof.
  intros HI. rewrite loop_tick_exec.
  destruct (initialized (activeSchedules g)) eqn:Hini; [|done].
  destruct HI as [Hl [[? _]|[Hfr [armed Hi]]]]; [congruence|].
  set (g1 := if weekendActive _ then _ else _).
  assert (Inv cap g1 ∧ firstRun g1 = firstRun g) as [HI1 Hf1].
  { subst g1. destruct (weekendActive _) eqn:Hw.
    - destruct (setWeekendTimerState_same_frame wd g) as [Hl' Hf'].
      split; [|done]. split; [congruence|]. right. split; [congruence|].
      eauto using setWeekendTimerState_installed.
    - split; [|done]. split; [done|]. right. eauto. }
  split.
  - eapply same_alarms_Inv; [apply setOutputState_same_alarms|done].
  - by destruct (setOutputState_same_frame g1) as [_ ->].
Qed.

Lemma handlePostSchedule_Inv cap server locals saveOk clock g :
  (15 ≤ cap)%nat → Inv cap g → firstRun g = false →
  Inv cap (exec (handlePostSchedule server locals saveOk clock) g).
Proof.
  intros Hc HI Hf. destruct (accepted server) eqn:Ha.
  - destruct (handlePostSchedule_accepted server locals saveOk clock g Ha) as [-> _].
    assert (same_alarms g (with_intensities server g)) as Hs.
    { by destruct g as [[] ? ? ? ? ? ? ? ? ?]. }
    assert (Inv cap (after_setSchedule server locals g)) as HI2.
    { apply (same_alarms_Inv _ _ _ Hs) in HI. destruct Hs as (_&_&_&_&_&_&Hf').
      apply setSchedule_Inv; [done|by destruct HI|by eapply Inv_good|congruence]. }
    assert (∀ b g', same_alarms g' (set_currentStatePersisted b g')) as Hc'
      by (by intros ? [[] ? ? ? ? ? ? ? ? ?]).
    eapply same_alarms_Inv; [apply Hc'|].
    eapply same_alarms_Inv; [apply saveSettings_same_alarms|exact HI2].
  - by destruct (handlePostSchedule_rejected server locals saveOk clock g Ha) as [-> _].
Qed.

Lemma step_Inv cap g i : (15 ≤ cap)%nat → Inv cap g → Inv cap (step g i).
Proof.
  intros Hc HI. unfold step. rewrite loop_exec. cbv zeta.
  apply (same_alarms_Inv _ _ _ (Alarm_delay_same_alarms (in_due i) g)) in HI.
  apply (loop_firstRun_Inv _ _ Hc) in HI as [HI Hf].
  set (g2 := exec loop_firstRun _) in *.
  set (g3 := if interval <=? _ then _ else _).
  assert (Inv cap g3 ∧ firstRun g3 = false) as [HI3 Hf3].
  { subst g3. destruct (interval <=? _); [|done].
    assert (same_alarms g2 (set_previousMillis (in_millis i) g2)) as Hs
      by (by destruct g2 as [[] ? ? ? ? ? ? ? ? ?]).
    apply (same_alarms_Inv _ _ _ Hs) in HI.
    destruct (loop_tick_Inv cap (in_weekday i) _ HI) as [? ->].
    split; [done|]. by destruct g2. }
  destruct (in_request i); [|done]. by apply handlePostSchedule_Inv.
Qed.

Lemma reset_Inv cap stored : Inv cap (reset cap stored).
Proof.
  split; [apply length_replicate|]. left. split; [done|].
  unfold pool_free. cbn. by rewrite length_replicate.
Qed.

(** Every state the loop reaches from reset satisfies the invariant. *)
Lemma run_Inv cap stored inputs :
  (15 ≤ cap)%nat → Inv cap (run inputs (reset cap stored)).
Proof.
  intros Hc. unfold run. generalize (reset_Inv cap stored).
  generalize (reset cap stored). induction inputs as [|i inputs IH]; intros g HI; [done|].
  cbn. apply IH. by apply step_Inv.
Qed.

(** ** What [setSchedule] stores *)

Lemma setAlarms_erase_ids w g :
  erase_ids (activeSchedules (exec (setAlarms w) g)) = erase_ids (activeSchedules g).
Proof.
  pose proof (setAlarms_same_but_alarms w g) as H. unfold same_but_alarms in H.
  apply (f_equal activeSchedules) in H.
  by destruct g, (exec (setAlarms w) _).
Qed.

(** After [setSchedule] the state holds the submitted schedules, [dst],
    [persistedInEEPROM = false] and [initialized = true]; intensities and
    output state are as before; only the handles are new. *)
Lemma setSchedule_stores g d n dst wd wn :
  erase_ids (activeSchedules (exec (setSchedule d n dst wd wn) g))
  = erase_ids (mkStateContainer false true dst d n wd wn
                 (dayIntensity (activeSchedules g)) (nightIntensity (activeSchedules g))
                 (currentState (activeSchedules g))).
Proof.
  unfold setSchedule. rewrite exec_bind.
  pose proof (setSchedule_teardown_only_Alarm g) as Ho.
  apply only_Alarm_eq with (p := Alarm (exec setSchedule_teardown g)) in Ho; [|done].
  rewrite Ho. unfold setSchedule_install. rewrite !exec_bind.
  cbn [exec modify snd].
  match goal with
  | |- erase_ids (activeSchedules (upd_activeSchedules _ (exec (setAlarms ?w) ?G))) = _ =>
      pose proof (setAlarms_erase_ids w G) as He;
      destruct (exec (setAlarms w) G) as [a' ? ? ? ? ? ? ? ? ?]
  end.
  clear Ho. destruct g as [[] ? ? ? ? ? ? ? ? ?], a'.
  vm_compute in He |- *. congruence.
Qed.

Lemma erase_ids_times a b :
  erase_ids a = erase_ids b →
  times (day a) = times (day b) ∧ times (night a) = times (night b)
  ∧ times (weekendDay a) = times (weekendDay b)
  ∧ times (weekendNight a) = times (weekendNight b)
  ∧ persistedInEEPROM a = persistedInEEPROM b ∧ initialized a = initialized b
  ∧ dstActive a = dstActive b ∧ dayIntensity a = dayIntensity b
  ∧ nightIntensity a = nightIntensity b ∧ currentState a = currentState b.
Proof.
  destruct a as [? ? ? [] [] [] [] ? ? ?], b as [? ? ? [] [] [] [] ? ? ?].
  vm_compute. intros ?. repeat split; congruence.
Qed.

Lemma setSchedule_weekendActive g d n dst wd wn :
  weekendActive (activeSchedules (exec (setSchedule d n dst wd wn) g))
  = negb (startHour wd =? -1).
Proof.
  pose proof (erase_ids_times _ _ (setSchedule_stores g d n dst wd wn)) as (_&_&H&_).
  unfold weekendActive, times in *. cbn in H. congruence.
Qed.

(** *** Counting *)

Lemma count_Some (l : list AlarmClass) : TimeAlarms.count (Some <$> l) = length l.
Proof.
  unfold TimeAlarms.count. induction l as [|a l IH]; [done|].
  rewrite fmap_cons, filter_cons_True by done. cbn. by rewrite IH.
Qed.

Lemma count_installed armed g :
  installed armed g →
  TimeAlarms.count (Alarm g)
  = if weekendActive (activeSchedules g) then 15%nat else 4%nat.
Proof.
  intros (_ & _ & k & ->). unfold installed_pool.
  rewrite count_app, count_replicate, count_Some, length_app.
  by destruct (weekendActive _).
Qed.

(** * The claims *)

(** ** C1 *)

(** C1.  When a weekend override is configured ([weekendDay.startHour] is
    not [-1]), [setSchedule], called in any state the loop reaches with a
    pool of at least fifteen slots, leaves the pool holding exactly these
    alarms.  The handles in [weekendDay.timerIds] name, in order: Friday
    start at the regular day start, Friday end at the weekend day end,
    Saturday start and end at the weekend day times, Sunday start at the
    weekend day start, Sunday end at the regular day end.  Those in
    [weekendNight.timerIds[0..4]] name: Friday start at the weekend night
    start, Saturday end at the weekend night end, Saturday start, Sunday
    end, and a fifth, start-tagged Sunday alarm at the regular night start.
    Besides these the pool holds the four every-day alarms and free slots. *)
Theorem C1_weekend_boundary_pairing cap stored inputs d n dst wd wn :
  (15 ≤ cap)%nat → startHour wd ≠ -1 →
  let g' := exec (setSchedule d n dst wd wn) (run inputs (reset cap stored)) in
  let a := activeSchedules g' in
  let weekend_day :=
    [ mkAlarm (Some dowFriday) (startHour d) (startMinute d) 0 cb_startDay true;
      mkAlarm (Some dowFriday) (endHour wd) (endMinute wd) 0 cb_endDay true;
      mkAlarm (Some dowSaturday) (startHour wd) (startMinute wd) 0 cb_startDay true;
      mkAlarm (Some dowSaturday) (endHour wd) (endMinute wd) 0 cb_endDay true;
      mkAlarm (Some dowSunday) (startHour wd) (startMinute wd) 0 cb_startDay true;
      mkAlarm (Some dowSunday) (endHour d) (endMinute d) 0 cb_endDay true ] in
  let weekend_night :=
    [ mkAlarm (Some dowFriday) (startHour wn) (startMinute wn) 0 cb_startNight true;
      mkAlarm (Some dowSaturday) (endHour wn) (endMinute wn) 0 cb_endNight true;
      mkAlarm (Some dowSaturday) (startHour wn) (startMinute wn) 0 cb_startNight true;
      mkAlarm (Some dowSunday) (endHour wn) (endMinute wn) 0 cb_endNight true;
      mkAlarm (Some dowSunday) (startHour n) (startMinute n) 0 cb_startNight true ] in
  let regular :=
    [ mkAlarm None (startHour d) (startMinute d) 0 cb_startDay true;
      mkAlarm None (endHour d) (endMinute d) 0 cb_endDay true;
      mkAlarm None (startHour n) (startMinute n) 0 cb_startNight true;
      mkAlarm None (endHour n) (endMinute n) 0 cb_endNight true ] in
  TimeAlarms.slot (Alarm g') <$> vec_to_list (timerIds (weekendDay a))
    = Some <$> weekend_day
  ∧ TimeAlarms.slot (Alarm g') <$> take 5 (vec_to_list (timerIds (weekendNight a)))
    = Some <$> weekend_night
  ∧ Alarm g' = (Some <$> weekend_day ++ weekend_night ++ regular)
               ++ replicate (cap - 15) None.
Proof.
  intros Hc Hw g' a.
  pose proof (run_Inv cap stored inputs Hc) as HI.
  pose proof (setSchedule_installed _ d n dst wd wn (Inv_good _ _ HI)) as Hi.
  destruct HI as [Hl _]. rewrite Hl in Hi. specialize (Hi Hc).
  pose proof (setSchedule_same_frame d n dst wd wn (run inputs (reset cap stored))) as [Hl' _].
  pose proof (erase_ids_times _ _ (setSchedule_stores (run inputs (reset cap stored))
                                     d n dst wd wn)) as (Hd & Hn & Hwd & Hwn & _).
  fold g' in Hi, Hl', Hd, Hn, Hwd, Hwn. fold a in Hd, Hn, Hwd, Hwn.
  rewrite Hl in Hl'. clearbody g'. subst a.
  destruct Hi as (_ & Hids & k & HA).
  unfold installed_ids, installed_pool, weekendActive, weekend_alarms, regular_alarms in *.
  unfold times in *. cbn in Hd, Hn, Hwd, Hwn.
  injection Hd as Hd1 Hd2 Hd3 Hd4. injection Hn as Hn1 Hn2 Hn3 Hn4.
  injection Hwd as Hwd1 Hwd2 Hwd3 Hwd4. injection Hwn as Hwn1 Hwn2 Hwn3 Hwn4.
  rewrite Hd1, Hd2, Hd3, Hd4, Hn1, Hn2, Hn3, Hn4, Hwd1, Hwd2, Hwd3, Hwd4,
    Hwn1, Hwn2, Hwn3, Hwn4 in HA.
  rewrite Hwd1 in Hids.
  apply Z.eqb_neq in Hw. rewrite Hw in *. cbn [negb] in *.
  destruct Hids as (Hi1 & Hi2 & _).
  rewrite Hi1, Hi2, HA.
  assert (k = (cap - 15)%nat) as ->.
  { rewrite HA in Hl'. rewrite length_app, length_replicate, length_fmap in Hl'.
    cbn in Hl'. lia. }
  repeat split; reflexivity.
Qed.

Lemma C1_witness :
  (15 ≤ 20)%nat ∧ startHour Example.weekendDay ≠ -1
  ∧ Alarm (exec (applySchedule Example.with_weekend) (run [] Example.fresh))
    = (Some <$> [ mkAlarm (Some dowFriday) 7 0 0 cb_startDay true;
                  mkAlarm (Some dowFriday) 21 0 0 cb_endDay true;
                  mkAlarm (Some dowSaturday) 9 30 0 cb_startDay true;
                  mkAlarm (Some dowSaturday) 21 0 0 cb_endDay true;
                  mkAlarm (Some dowSunday) 9 30 0 cb_startDay true;
                  mkAlarm (Some dowSunday) 19 0 0 cb_endDay true;
                  mkAlarm (Some dowFriday) 22 0 0 cb_startNight true;
                  mkAlarm (Some dowSaturday) 6 0 0 cb_endNight true;
                  mkAlarm (Some dowSaturday) 22 0 0 cb_startNight true;
                  mkAlarm (Some dowSunday) 6 0 0 cb_endNight true;
                  mkAlarm (Some dowSunday) 19 0 0 cb_startNight true;
                  mkAlarm None 7 0 0 cb_startDay true;
                  mkAlarm None 19 0 0 cb_endDay true;
                  mkAlarm None 19 0 0 cb_startNight true;
                  mkAlarm None 7 0 0 cb_endNight true ])
      ++ replicate 5 None.
Proof.
  split; [lia|]. split; [done|].
  apply (C1_weekend_boundary_pairing 20 zero_StateContainer [] Example.day Example.night
           false Example.weekendDay Example.weekendNight); [lia|done].
Defined.

(** ** C2 *)

(** C2.  Let the loop have reached any state from reset, with a pool of at
    least fifteen slots, and let schedule A be installed there.  Then
    installing B first frees every slot (after the teardown half of
    [setSchedule] none is held) and then allocates B's alarms: afterwards
    the pool holds exactly 4 slots when B has no weekend override and 15
    when it has.  Installing B a second time leaves the same count. *)
Theorem C2_slot_count cap stored inputs (A B : Submission) :
  (15 ≤ cap)%nat →
  let gA := exec (applySchedule A) (run inputs (reset cap stored)) in
  let gB := exec (applySchedule B) gA in
  TimeAlarms.count (Alarm (exec setSchedule_teardown gA)) = 0%nat
  ∧ TimeAlarms.count (Alarm gB) = required_slots B
  ∧ TimeAlarms.count (Alarm (exec (applySchedule B) gB)) = TimeAlarms.count (Alarm gB).
Proof.
  intros Hc gA gB.
  pose proof (run_Inv cap stored inputs Hc) as HI.
  assert (∀ g S, good g → length (Alarm g) = cap →
            installed true (exec (applySchedule S) g)
            ∧ length (Alarm (exec (applySchedule S) g)) = cap
            ∧ TimeAlarms.count (Alarm (exec (applySchedule S) g)) = required_slots S)
    as Happly.
  { intros g S Hg Hl. unfold applySchedule.
    assert (installed true (exec (setSchedule (sub_day S) (sub_night S) (sub_dst S)
              (sub_weekendDay S) (sub_weekendNight S)) g)) as Hi
      by (apply setSchedule_installed; [done|lia]).
    split; [done|]. split.
    - destruct (setSchedule_same_frame (sub_day S) (sub_night S) (sub_dst S)
                  (sub_weekendDay S) (sub_weekendNight S) g) as [-> _]. done.
    - rewrite (count_installed _ _ Hi), setSchedule_weekendActive.
      unfold required_slots. by destruct (_ =? -1). }
  destruct (Happly _ A (Inv_good _ _ HI) (proj1 HI)) as (HiA & HlA & _).
  fold gA in HiA, HlA.
  destruct (Happly gA B (installed_good _ _ HiA) HlA) as (HiB & HlB & HcB).
  fold gB in HiB, HlB, HcB.
  destruct (Happly gB B (installed_good _ _ HiB) HlB) as (_ & _ & HcB').
  split; [|split; [done|congruence]].
  rewrite (teardown_good _ (installed_good _ _ HiA)).
  destruct gA. cbn. apply count_replicate.
Qed.

Lemma C2_witness :
  (15 ≤ 20)%nat
  ∧ TimeAlarms.count
      (Alarm (exec setSchedule_teardown
                (exec (applySchedule Example.with_weekend) (run [] Example.fresh)))) = 0%nat
  ∧ TimeAlarms.count
      (Alarm (exec (applySchedule Example.regular_only)
                (exec (applySchedule Example.with_weekend) (run [] Example.fresh)))) = 4%nat
  ∧ TimeAlarms.count
      (Alarm (exec (applySchedule Example.regular_only)
                (exec (applySchedule Example.regular_only)
                   (exec (applySchedule Example.with_weekend) (run [] Example.fresh)))))
    = TimeAlarms.count
        (Alarm (exec (applySchedule Example.regular_only)
                  (exec (applySchedule Example.with_weekend) (run [] Example.fresh)))).
Proof.
  split; [lia|].
  apply (C2_slot_count 20 zero_StateContainer [] Example.with_weekend Example.regular_only).
  lia.
Defined.

(** ** C5 *)

Global Instance same_activeSchedules_preorder : PreOrder same_activeSchedules.
Proof.
  split; [by intros g|]. intros g1 g2 g3 H1 H2. unfold same_activeSchedules in *. congruence.
Qed.

Lemma loop_tick_same_activeSchedules wd : preserves same_activeSchedules (loop_tick wd).
Proof.
  unfold loop_tick, setWeekendTimerState, setOutputState, Alarm_enable, Alarm_disable,
    analogWrite, digitalWrite_LOW.
  frame; apply preserves_modify; by intros [].
Qed.




(** ** C6, C9 and C10: firings and persistence *)

(** What [saveSettings] does to the globals: the snapshot with the flag
    forced to [true] goes into the EEPROM's RAM copy, reaches the flash
    when the commit works, and the live flag takes the commit's answer. *)
Lemma saveSettings_exec ok addr s g :
  exec (saveSettings ok addr s) g
  = upd_activeSchedules (set_persistedInEEPROM ok)
      (set_EEPROM
         (mkEEPROM (set_persistedInEEPROM true s)
            (if ok then set_persistedInEEPROM true s else eeprom_flash (EEPROM g)))
         g).
Proof. by destruct ok, g. Qed.

Lemma call_handler_exec h ok g :
  let a := set_currentState (latch h (currentState (activeSchedules g))) (activeSchedules g) in
  exec (call_handler h ok) g
  = upd_activeSchedules (λ _, set_persistedInEEPROM ok a)
      (set_EEPROM
         (mkEEPROM (set_persistedInEEPROM true a)
            (if ok then set_persistedInEEPROM true a else eeprom_flash (EEPROM g)))
         g).
Proof. by destruct h, ok, g as [[] ? ? ? ? ? ? ? ? ?]. Qed.

(** C6, as the code has it.  A firing sets the latched flag of its tag
    (start: true, end: false) and at once writes the whole state to the
    EEPROM, the snapshot's flag forced to true.  In the live state the
    flag of the tag and [persistedInEEPROM], which takes the commit's
    answer, are the only fields that can change. *)
Theorem C6_firing_latches_and_saves h ok g :
  let g' := exec (call_handler h ok) g in
  let a := activeSchedules g in
  let o := currentState a in
  currentState (activeSchedules g')
  = match h with
    | cb_startDay => mkOutputState true (nightActive o)
    | cb_endDay => mkOutputState false (nightActive o)
    | cb_startNight => mkOutputState (dayActive o) true
    | cb_endNight => mkOutputState (dayActive o) false
    end
  ∧ eeprom_data (EEPROM g')
    = set_persistedInEEPROM true (set_currentState (currentState (activeSchedules g')) a)
  ∧ activeSchedules g'
    = set_persistedInEEPROM ok (set_currentState (currentState (activeSchedules g')) a)
  ∧ eeprom_flash (EEPROM g')
    = (if ok then eeprom_data (EEPROM g') else eeprom_flash (EEPROM g)).
Proof.
  intros g' a o. subst g'. rewrite call_handler_exec. subst a o.
  by destruct h, ok, g as [[] ? ? ? ? ? ? ? ? ?].
Qed.

(** C6 as stated fails: in the scenario's state, saved with success, a
    day-start firing whose commit fails changes [persistedInEEPROM] too,
    so the state is not the old one with only [dayActive] set. *)
Lemma C6_counterexample :
  persistedInEEPROM (activeSchedules Example.scenario) = true
  ∧ persistedInEEPROM (activeSchedules (exec (startDay false) Example.scenario)) = false
  ∧ activeSchedules (exec (startDay false) Example.scenario)
    ≠ set_dayActive true (activeSchedules Example.scenario).
Proof.
  split; [by vm_compute|]. split; [by vm_compute|].
  intros H. apply (f_equal persistedInEEPROM) in H. vm_compute in H. discriminate H.
Qed.

Lemma setSchedule_persisted g d n dst wd wn :
  persistedInEEPROM (activeSchedules (exec (setSchedule d n dst wd wn) g)) = false.
Proof.
  by pose proof (erase_ids_times _ _ (setSchedule_stores g d n dst wd wn))
    as (_&_&_&_&->&_).
Qed.

Lemma setOutputState_same_activeSchedules :
  preserves same_activeSchedules setOutputState.
Proof.
  unfold setOutputState, analogWrite, digitalWrite_LOW.
  frame; apply preserves_modify; by intros [].
Qed.

Lemma Alarm_delay_persisted due g :
  persistedInEEPROM (activeSchedules (exec (Alarm_delay due) g)) = true →
  persistedInEEPROM (activeSchedules g) = true ∨ existsb snd due = true.
Proof.
  revert g. induction due as [|d due IH]; intros g; [by left|].
  unfold Alarm_delay. cbn [foldr]. fold (Alarm_delay due).
  rewrite 2!exec_bind. cbn [eval exec gets fst snd].
  intros H. apply IH in H as [H|H]; [|right; cbn; by rewrite H, orb_true_r].
  revert H.
  destruct (TimeAlarms.slot (Alarm g) d.1) as [a|]; [|by left].
  destruct (isEnabled a); [|by left]. cbn [when]. rewrite call_handler_exec.
  destruct g as [[] ? ? ? ? ? ? ? ? ?]. cbn. intros ->. by right.
Qed.

Lemma loop_firstRun_persisted g :
  persistedInEEPROM (activeSchedules (exec loop_firstRun g)) = true →
  persistedInEEPROM (activeSchedules g) = true.
Proof.
  rewrite loop_firstRun_exec. destruct (firstRun g); [|done]. cbv zeta.
  destruct (persistedInEEPROM (activeSchedules (exec _ _))) eqn:E.
  - rewrite (setOutputState_same_activeSchedules _), setSchedule_persisted. done.
  - congruence.
Qed.

Lemma handlePostSchedule_persisted server locals saveOk clock g :
  persistedInEEPROM (activeSchedules (exec (handlePostSchedule server locals saveOk clock) g))
  = if accepted server then saveOk else persistedInEEPROM (activeSchedules g).
Proof.
  destruct (accepted server) eqn:Ha.
  - destruct (handlePostSchedule_accepted server locals saveOk clock g Ha) as [-> _].
    rewrite saveSettings_exec. by destruct (after_setSchedule _ _ _) as [[] ? ? ? ? ? ? ? ? ?].
  - by destruct (handlePostSchedule_rejected server locals saveOk clock g Ha) as [-> _].
Qed.

(** C9.  [setSchedule] leaves [persistedInEEPROM] false.  After
    [saveSettings] the live flag is the commit's answer, which is also
    what the call returns; when the commit fails nothing but that flag,
    now false, and the EEPROM's RAM copy differs from before, and nothing
    is tried again.  Over a whole pass of [loop], the flag can go from
    false to true only when a commit of that pass reported success. *)
Theorem C9_persisted_flag g i d n dst wd wn ok addr s :
  persistedInEEPROM (activeSchedules (exec (setSchedule d n dst wd wn) g)) = false
  ∧ persistedInEEPROM (activeSchedules (exec (saveSettings ok addr s) g)) = ok
  ∧ eval (saveSettings ok addr s) g = ok
  ∧ exec (saveSettings false addr s) g
    = upd_activeSchedules (set_persistedInEEPROM false)
        (set_EEPROM (mkEEPROM (set_persistedInEEPROM true s) (eeprom_flash (EEPROM g))) g)
  ∧ (persistedInEEPROM (activeSchedules g) = false →
     persistedInEEPROM (activeSchedules (step g i)) = true →
     any_commit_ok i = true).
Proof.
  split; [apply setSchedule_persisted|].
  split; [rewrite saveSettings_exec; by destruct g as [[] ? ? ? ? ? ? ? ? ?]|].
  split; [apply saveSettings_eval|].
  split; [apply saveSettings_exec|].
  unfold step, any_commit_ok. rewrite loop_exec. cbv zeta. intros Hg H.
  set (g2 := exec loop_firstRun _) in *.
  set (g3 := if interval <=? _ then _ else _) in *.
  assert (persistedInEEPROM (activeSchedules g3) = persistedInEEPROM (activeSchedules g2))
    as H32.
  { subst g3. destruct (interval <=? _); [|done].
    rewrite (loop_tick_same_activeSchedules _ _). by destruct g2. }
  assert (persistedInEEPROM (activeSchedules g3) = true → existsb snd (in_due i) = true)
    as Hdue.
  { rewrite H32. intros H2. apply loop_firstRun_persisted in H2.
    apply Alarm_delay_persisted in H2 as [H2|H2]; [congruence|done]. }
  destruct (in_request i) as [r|].
  - rewrite handlePostSchedule_persisted in H. destruct (accepted _).
    + rewrite H. apply orb_true_r.
    + rewrite Hdue; done.
  - rewrite Hdue; done.
Qed.

Lemma C9_witness :
  persistedInEEPROM (activeSchedules Example.fresh) = false
  ∧ persistedInEEPROM (activeSchedules (step Example.fresh Example.weekend_pass)) = true
  ∧ any_commit_ok Example.weekend_pass = true.
Proof.
  assert (persistedInEEPROM (activeSchedules Example.fresh) = false) as H1 by reflexivity.
  assert (persistedInEEPROM (activeSchedules (step Example.fresh Example.weekend_pass))
          = true) as H2 by (by vm_compute).
  split; [exact H1|]. split; [exact H2|].
  exact (proj2 (proj2 (proj2 (proj2
           (C9_persisted_flag Example.fresh Example.weekend_pass Example.day Example.night
              false Example.none Example.none true 0 zero_StateContainer)))) H1 H2).
Defined.

(** C10.  Whatever the live flag and whatever the commit answers, the
    snapshot [saveSettings] puts into the EEPROM has [persistedInEEPROM]
    true; it reaches the flash when the commit works.  [readSavedSettings]
    takes the stored snapshot over as the live state when the snapshot's
    flag is true and changes nothing at all when it is false; nothing else
    of the snapshot is looked at.  At startup, from reset, the first-run
    block of [loop] accordingly either leaves everything but [firstRun]
    as it was or restores the snapshot and installs its schedule. *)
Theorem C10_snapshot_flag g ok addr s cap stored :
  eeprom_data (EEPROM (exec (saveSettings ok addr s) g)) = set_persistedInEEPROM true s
  ∧ persistedInEEPROM (eeprom_data (EEPROM (exec (saveSettings ok addr s) g))) = true
  ∧ eeprom_flash (EEPROM (exec (saveSettings ok addr s) g))
    = (if ok then set_persistedInEEPROM true s else eeprom_flash (EEPROM g))
  ∧ exec (readSavedSettings addr) g
    = (if persistedInEEPROM (eeprom_data (EEPROM g)) then restore g else g)
  ∧ activeSchedules (restore g) = eeprom_data (EEPROM g)
  ∧ exec loop_firstRun (reset cap stored)
    = (if persistedInEEPROM stored
       then exec setOutputState
              (exec (setSchedule (day stored) (night stored) (dstActive stored)
                       (weekendDay stored) (weekendNight stored))
                 (restore (set_firstRun false (reset cap stored))))
       else set_firstRun false (reset cap stored)).
Proof.
  rewrite saveSettings_exec, readSavedSettings_exec, loop_firstRun_exec.
  split; [by destruct g|]. split; [by destruct g, s|]. split; [by destruct g|].
  split; [done|]. split; [by destruct g|].
  cbn [firstRun reset]. rewrite readSavedSettings_exec.
  cbn [EEPROM reset set_firstRun eeprom_data]. cbv zeta.
  destruct (persistedInEEPROM stored) eqn:E.
  - change (activeSchedules (restore (set_firstRun false (reset cap stored)))) with stored.
    by rewrite E.
  - reflexivity.
Qed.

(** ** C7: reading the schedule back *)

Lemma read_write_time_all :
  Forall (λ h, Forall (λ m, read_time (write_time h m) = (h, m)) (seqZ 0 60)) (seqZ 0 24).
Proof. apply (bool_decide_unpack _). by vm_compute. Qed.

Lemma read_write_time h m :
  0 ≤ h ≤ 23 → 0 ≤ m ≤ 59 → read_time (write_time h m) = (h, m).
Proof.
  intros Hh Hm. pose proof read_write_time_all as H.
  rewrite Forall_forall in H. specialize (H h). rewrite elem_of_seqZ in H.
  specialize (H ltac:(lia)). rewrite Forall_forall in H.
  apply H. rewrite elem_of_seqZ. lia.
Qed.

(** C7.  For every schedule whose day and night times are valid (hours
    0 to 23, minutes 0 to 59), right after [setSchedule] the stored day
    and night start and end times are the submitted ones; the texts
    [getFormattedHourMinuteConcatenation] shows for them are those times
    zero-padded, and they read back, the way the form is parsed, as the
    submitted values. *)
Theorem C7_round_trip g (s : Submission) :
  valid_times (sub_day s) → valid_times (sub_night s) →
  let g' := exec (applySchedule s) g in
  let shown t := eval (getFormattedHourMinuteConcatenation t) g' in
  times (day (activeSchedules g')) = times (sub_day s)
  ∧ times (night (activeSchedules g')) = times (sub_night s)
  ∧ shown dayStart = write_time (startHour (sub_day s)) (startMinute (sub_day s))
  ∧ shown dayEnd = write_time (endHour (sub_day s)) (endMinute (sub_day s))
  ∧ shown nightStart = write_time (startHour (sub_night s)) (startMinute (sub_night s))
  ∧ shown nightEnd = write_time (endHour (sub_night s)) (endMinute (sub_night s))
  ∧ read_time (shown dayStart) = (startHour (sub_day s), startMinute (sub_day s))
  ∧ read_time (shown dayEnd) = (endHour (sub_day s), endMinute (sub_day s))
  ∧ read_time (shown nightStart) = (startHour (sub_night s), startMinute (sub_night s))
  ∧ read_time (shown nightEnd) = (endHour (sub_night s), endMinute (sub_night s)).
Proof.
  intros [[Hv1 Hv2] [Hv3 Hv4]] [[Hv5 Hv6] [Hv7 Hv8]] g' shown.
  pose proof (erase_ids_times _ _
    (setSchedule_stores g (sub_day s) (sub_night s) (sub_dst s) (sub_weekendDay s)
       (sub_weekendNight s))) as (Hd & Hn & _).
  cbn [day night] in Hd, Hn. fold (applySchedule s) in Hd, Hn. fold g' in Hd, Hn.
  assert (shown dayStart = write_time (startHour (sub_day s)) (startMinute (sub_day s))
          ∧ shown dayEnd = write_time (endHour (sub_day s)) (endMinute (sub_day s))
          ∧ shown nightStart
            = write_time (startHour (sub_night s)) (startMinute (sub_night s))
          ∧ shown nightEnd = write_time (endHour (sub_night s)) (endMinute (sub_night s)))
    as (H1 & H2 & H3 & H4).
  { unfold times in Hd, Hn. injection Hd as Hd1 Hd2 Hd3 Hd4.
    injection Hn as Hn1 Hn2 Hn3 Hn4.
    subst shown. cbv beta. unfold getFormattedHourMinuteConcatenation, write_time.
    rewrite !eval_bind. cbn [eval exec gets mret M_ret fst snd].
    rewrite Hd1, Hd2, Hd3, Hd4, Hn1, Hn2, Hn3, Hn4. done. }
  rewrite H1, H2, H3, H4, !read_write_time by done. done.
Qed.

Lemma C7_witness :
  valid_times Example.day ∧ valid_times Example.night
  ∧ eval (getFormattedHourMinuteConcatenation dayStart)
      (exec (applySchedule Example.regular_only) Example.fresh) = "07:00"%string
  ∧ read_time (eval (getFormattedHourMinuteConcatenation nightStart)
                 (exec (applySchedule Example.regular_only) Example.fresh)) = (19, 0).
Proof.
  assert (valid_times Example.day) as Hd by (unfold valid_times; cbn; lia).
  assert (valid_times Example.night) as Hn by (unfold valid_times; cbn; lia).
  split; [exact Hd|]. split; [exact Hn|].
  pose proof (C7_round_trip Example.fresh Example.regular_only Hd Hn)
    as (_ & _ & H1 & _ & _ & _ & _ & _ & H2 & _).
  split; [exact H1|exact H2].
Defined.

(** ** C8: the derived output *)

(** C8.  After [setOutputState] the day pin carries the PWM duty cycle
    [map(dayIntensity, 0, 100, 0, 1023)] when [dayActive] is set and is
    driven low otherwise, and likewise the night pin with
    [nightIntensity] and [nightActive].  For an intensity [i] from 1 to
    100 the duty cycle is [i * 1023 / 100], rounded down, and lies within
    0 to 1023; intensity 80 gives 818. *)
Theorem C8_output_duty g i :
  1 ≤ i ≤ 100 →
  let g' := exec setOutputState g in
  let a := activeSchedules g in
  pin_output dayPin g'
  = (if dayActive (currentState a)
     then PinPWM (map (dayIntensity a) 0 100 0 1023) else PinLow)
  ∧ pin_output nightPin g'
    = (if nightActive (currentState a)
       then PinPWM (map (nightIntensity a) 0 100 0 1023) else PinLow)
  ∧ map i 0 100 0 1023 = (i * 1023) `div` 100
  ∧ 0 ≤ map i 0 100 0 1023 ≤ 1023
  ∧ map 80 0 100 0 1023 = 818.
Proof.
  intros Hi g' a.
  assert (map i 0 100 0 1023 = (i * 1023) `div` 100) as Hm.
  { unfold map. change (1023 - 0) with 1023. change (100 - 0) with 100.
    rewrite Z.sub_0_r, Z.add_0_r. apply Z.quot_div_nonneg; lia. }
  split; [|split; [|split; [exact Hm|split; [|reflexivity]]]].
  - subst g' a. destruct g as [[? ? ? ? ? ? ? ? ? [[] []]] ? ? ? ? ? ? ? ? ?]; reflexivity.
  - subst g' a. destruct g as [[? ? ? ? ? ? ? ? ? [[] []]] ? ? ? ? ? ? ? ? ?]; reflexivity.
  - rewrite Hm. split.
    + apply Z.div_pos; lia.
    + apply Z.div_le_upper_bound; lia.
Qed.

Lemma C8_witness :
  1 ≤ 30 ≤ 100
  ∧ pin_output dayPin
      (exec setOutputState (exec (startDay true) Example.scenario)) = PinPWM 818
  ∧ pin_output nightPin
      (exec setOutputState (exec (startDay true) Example.scenario)) = PinLow
  ∧ map 30 0 100 0 1023 = 306.
Proof.
  assert (1 ≤ 30 ≤ 100) as Hi by lia.
  split; [exact Hi|].
  pose proof (C8_output_duty (exec (startDay true) Example.scenario) 30 Hi)
    as (H1 & H2 & H3 & _).
  split; [exact H1|]. split; [exact H2|exact H3].
Defined.

(** ** C3 and C4: what the request surface checks *)

Lemma handlePostSchedule_stores server locals saveOk clock g :
  accepted server = true →
  let a := activeSchedules (exec (handlePostSchedule server locals saveOk clock) g) in
  times (day a) = times (parsed_day server locals)
  ∧ times (night a) = times (parsed_night server locals)
  ∧ times (weekendDay a) = times (parsed_weekendDay server locals)
  ∧ times (weekendNight a) = times (parsed_weekendNight server locals)
  ∧ dayIntensity a = WString.toInt (server_arg server "dayIntensity")
  ∧ nightIntensity a = WString.toInt (server_arg server "nightIntensity")
  ∧ initialized a = true.
Proof.
  intros Ha a. subst a.
  destruct (handlePostSchedule_accepted server locals saveOk clock g Ha) as [-> _].
  rewrite saveSettings_exec.
  pose proof (erase_ids_times _ _
    (setSchedule_stores (with_intensities server g) (parsed_day server locals)
       (parsed_night server locals) (parsed_dst server) (parsed_weekendDay server locals)
       (parsed_weekendNight server locals))) as (H1 & H2 & H3 & H4 & _ & H5 & _ & H6 & H7 & _).
  fold (after_setSchedule server locals g) in H1, H2, H3, H4, H5, H6, H7.
  destruct (after_setSchedule server locals g) as [[] ? ? ? ? ? ? ? ? ?].
  destruct g as [[] ? ? ? ? ? ? ? ? ?]. cbn in *. by repeat split.
Qed.

(** C3, as the code has it.  There is no range check on hours and
    minutes.  A request that passes the gatekeeper and has the required
    fields is answered 200 whatever its times are, and the hours and
    minutes read from it, with the intensities, become the active
    schedule.  A request that does not pass is answered 400 or 401 and
    changes nothing. *)
Theorem C3_no_range_check server locals saveOk clock g :
  let r := handlePostSchedule server locals saveOk clock g in
  let a := activeSchedules (snd r) in
  if accepted server
  then resp_code (fst r) = 200
       ∧ times (day a)
         = (arg_hour server "dayStart", arg_minute server "dayStart",
            arg_hour server "dayEnd", arg_minute server "dayEnd")
       ∧ times (night a)
         = (arg_hour server "nightStart", arg_minute server "nightStart",
            arg_hour server "nightEnd", arg_minute server "nightEnd")
       ∧ dayIntensity a = WString.toInt (server_arg server "dayIntensity")
       ∧ nightIntensity a = WString.toInt (server_arg server "nightIntensity")
       ∧ initialized a = true
  else snd r = g ∧ (resp_code (fst r) = 400 ∨ resp_code (fst r) = 401).
Proof.
  intros r a. destruct (accepted server) eqn:Ha.
  - destruct (handlePostSchedule_stores server locals saveOk clock g Ha)
      as (H1 & H2 & _ & _ & H5 & H6 & H7).
    destruct (handlePostSchedule_accepted server locals saveOk clock g Ha) as [_ Hc].
    by repeat split.
  - apply handlePostSchedule_rejected, Ha.
Qed.

(** C3 as stated fails: with the scenario installed, a POST whose day
    start is 24:00 is answered 200 and the stored day start hour, 7
    before, is 24 afterwards. *)
Lemma C3_counterexample :
  arg_hour Example.post_hour24 "dayStart" = 24
  ∧ startHour (day (activeSchedules Example.scenario)) = 7
  ∧ resp_code (eval (handlePostSchedule Example.post_hour24 Example.locals true
                       "Tisdag, 07:00:00") Example.scenario) = 200
  ∧ startHour (day (activeSchedules
                     (exec (handlePostSchedule Example.post_hour24 Example.locals true
                              "Tisdag, 07:00:00") Example.scenario))) = 24.
Proof. repeat split; by vm_compute. Qed.

Lemma serverHasOptionalArgs_all server :
  serverHasOptionalArgs server = true
  ↔ Forall (λ name, ∃ v, server !! name = Some v ∧ v ≠ EmptyString) weekend_fields.
Proof.
  unfold serverHasOptionalArgs, weekend_fields, server_hasArg, server_arg, WString.not_null.
  rewrite !Forall_cons, Forall_nil, !andb_true_iff, !bool_decide_eq_true.
  destruct (server !! "weekendDayStart"%string) as [[|??]|],
    (server !! "weekendDayEnd"%string) as [[|??]|],
    (server !! "weekendNightStart"%string) as [[|??]|],
    (server !! "weekendNightEnd"%string) as [[|??]|]; cbn;
    (split; [intros; destruct_and?; try done; repeat split; eauto
            |intros; destruct_and?; repeat match goal with
               | H : ∃ _, _ |- _ => destruct H as [? [? ?]]
               | H : is_Some None |- _ => by destruct H
               end; simplify_eq; try done; repeat split; eauto]).
Qed.

(** C4, as the code has it.  A request that passes the gatekeeper and has
    the required fields is answered 200 whether or not its weekend fields
    are complete.  The weekend fields are used when all four are there
    and not empty; then the weekend times are the ones read from them.
    In every other case, one to three fields supplied included, they are
    ignored and the schedule is installed without a weekend override
    ([startHour] of both weekend schedules is [-1]). *)
Theorem C4_partial_weekend_ignored server locals saveOk clock g :
  accepted server = true →
  let r := handlePostSchedule server locals saveOk clock g in
  let a := activeSchedules (snd r) in
  resp_code (fst r) = 200
  ∧ (if serverHasOptionalArgs server
     then times (weekendDay a)
          = (arg_hour server "weekendDayStart", arg_minute server "weekendDayStart",
             arg_hour server "weekendDayEnd", arg_minute server "weekendDayEnd")
          ∧ times (weekendNight a)
            = (arg_hour server "weekendNightStart", arg_minute server "weekendNightStart",
               arg_hour server "weekendNightEnd", arg_minute server "weekendNightEnd")
     else startHour (weekendDay a) = -1 ∧ startHour (weekendNight a) = -1)
  ∧ (serverHasOptionalArgs server = true
     ↔ Forall (λ name, ∃ v, server !! name = Some v ∧ v ≠ EmptyString) weekend_fields).
Proof.
  intros Ha r a.
  destruct (handlePostSchedule_stores server locals saveOk clock g Ha)
    as (_ & _ & H3 & H4 & _).
  destruct (handlePostSchedule_accepted server locals saveOk clock g Ha) as [_ Hc].
  split; [exact Hc|]. split; [|apply serverHasOptionalArgs_all].
  fold r in H3, H4. change (exec _ g) with (snd r) in H3, H4. fold a in H3, H4.
  unfold parsed_weekendDay, parsed_weekendNight in *.
  destruct (serverHasOptionalArgs server); unfold times in *; cbn in H3, H4.
  - by split.
  - split; congruence.
Qed.

Lemma C4_witness :
  accepted Example.post_partial = true
  ∧ resp_code (eval (handlePostSchedule Example.post_partial Example.locals true
                       "Tisdag, 07:00:00") Example.weekend_state) = 200
  ∧ startHour (weekendDay (activeSchedules
        (exec (handlePostSchedule Example.post_partial Example.locals true
                 "Tisdag, 07:00:00") Example.weekend_state))) = -1.
Proof.
  assert (accepted Example.post_partial = true) as Ha by (by vm_compute).
  split; [exact Ha|].
  pose proof (C4_partial_weekend_ignored Example.post_partial Example.locals true
                "Tisdag, 07:00:00" Example.weekend_state Ha) as (H1 & H2 & _).
  split; [exact H1|].
  change (serverHasOptionalArgs Example.post_partial) with false in H2.
  exact (proj1 H2).
Defined.

(** C4 as stated fails: with a weekend schedule installed (weekend day
    from 9:30, fifteen alarms), a POST that supplies only
    [weekendDayStart] is answered 200 and replaces the schedule by one
    without weekend override (four alarms). *)
Lemma C4_counterexample :
  Example.post_partial !! "weekendDayStart"%string = Some "09:30"%string
  ∧ Example.post_partial !! "weekendDayEnd"%string = None
  ∧ startHour (weekendDay (activeSchedules Example.weekend_state)) = 9
  ∧ TimeAlarms.count (Alarm Example.weekend_state) = 15%nat
  ∧ resp_code (eval (handlePostSchedule Example.post_partial Example.locals true
                       "Tisdag, 07:00:00") Example.weekend_state) = 200
  ∧ startHour (weekendDay (activeSchedules
        (exec (handlePostSchedule Example.post_partial Example.locals true
                 "Tisdag, 07:00:00") Example.weekend_state))) = -1
  ∧ TimeAlarms.count
      (Alarm (exec (handlePostSchedule Example.post_partial Example.locals true
                      "Tisdag, 07:00:00") Example.weekend_state)) = 4%nat.
Proof. repeat split; by vm_compute. Qed.

(** * Further properties of the sketch *)

(** ** The handlers that only read *)

Lemma handleRoot_exec g : exec handleRoot g = g.
Proof.
  unfold handleRoot. rewrite !exec_bind, !getFormattedHourMinuteConcatenation_id.
  reflexivity.
Qed.

(** X1.  [handleRoot], [handleGetTime] and [handleNotFound] change nothing
    in the sketch's state, whatever it is; they answer 200, 200 and 404. *)
Theorem X1_read_only_handlers clock g :
  exec handleRoot g = g
  ∧ exec (handleGetTime clock) g = g
  ∧ exec handleNotFound g = g
  ∧ resp_code (eval handleRoot g) = 200
  ∧ resp_code (eval (handleGetTime clock) g) = 200
  ∧ resp_code (eval handleNotFound g) = 404.
Proof.
  split; [apply handleRoot_exec|]. split; [apply handleGetTime_id|].
  split; [reflexivity|]. split; [|split; [apply handleGetTime_code|reflexivity]].
  unfold handleRoot. rewrite !eval_bind. reflexivity.
Qed.

(** ** Who may change the schedule *)

Lemma present_iff (server : gmap string string) name :
  WString.not_null (server_arg server name) = true
  ↔ ∃ v, server !! name = Some v ∧ v ≠ EmptyString.
Proof.
  unfold WString.not_null, server_arg. rewrite negb_true_iff.
  destruct (server !! name) as [v|]; cbn.
  - rewrite String.eqb_neq. split; [eauto|]. by intros (? & [= <-] & ?).
  - split; [done|]. by intros (? & ? & ?).
Qed.

Lemma hasArg_present (server : gmap string string) name :
  WString.not_null (server_arg server name) = true → server_hasArg server name = true.
Proof.
  rewrite present_iff. intros (v & Hv & _). unfold server_hasArg.
  rewrite Hv. by apply bool_decide_eq_true.
Qed.

Lemma serverHasRequiredArgs_all server :
  serverHasRequiredArgs server = true
  ↔ Forall (λ name, ∃ v, server !! name = Some v ∧ v ≠ EmptyString) required_fields.
Proof.
  unfold serverHasRequiredArgs, required_fields.
  rewrite !Forall_cons, Forall_nil, !andb_true_iff, <- !present_iff.
  split.
  - intros. destruct_and?. by repeat split.
  - intros. destruct_and?. repeat split; try done; by apply hasArg_present.
Qed.

Lemma gatekeeper_iff server :
  server_hasArg server "gatekeeper"
  && WString.not_null (server_arg server "gatekeeper")
  && String.eqb (server_arg server "gatekeeper") superSecretPassword = true
  ↔ server !! "gatekeeper"%string = Some superSecretPassword.
Proof.
  rewrite !andb_true_iff, String.eqb_eq. split.
  - intros [[_ Hn] He]. apply present_iff in Hn as (v & Hv & _).
    unfold server_arg in He. rewrite Hv in He |- *. cbn in He. by subst.
  - intros H. unfold server_hasArg, server_arg, WString.not_null. rewrite H.
    split; [split|]; [by apply bool_decide_eq_true|done|done].
Qed.

Lemma accepted_iff server :
  accepted server = true
  ↔ server !! "gatekeeper"%string = Some superSecretPassword
    ∧ Forall (λ name, ∃ v, server !! name = Some v ∧ v ≠ EmptyString) required_fields.
Proof.
  unfold accepted. rewrite andb_true_iff, gatekeeper_iff, serverHasRequiredArgs_all. done.
Qed.

Lemma handlePostSchedule_code server locals saveOk clock g :
  resp_code (eval (handlePostSchedule server locals saveOk clock) g)
  = if negb (server_hasArg server "gatekeeper")
       || negb (WString.not_null (server_arg server "gatekeeper"))
    then 400
    else if String.eqb (server_arg server "gatekeeper") superSecretPassword
         then if serverHasRequiredArgs server then 200 else 400
         else 401.
Proof.
  destruct (accepted server) eqn:Ha.
  - destruct (handlePostSchedule_accepted server locals saveOk clock g Ha) as [_ ->].
    unfold accepted in Ha. repeat (apply andb_prop in Ha as [Ha ?]).
    by rewrite Ha, H, H0, H1.
  - unfold accepted in Ha. unfold handlePostSchedule.
    destruct (server_hasArg server "gatekeeper"); [|done].
    destruct (WString.not_null _); [|done].
    destruct (String.eqb _ superSecretPassword); [|done].
    cbn in Ha. by rewrite Ha.
Qed.

(** X2.  A POST is answered 200 exactly when its [gatekeeper] field is
    the password and all six required fields are there and not empty; it
    is answered 401 exactly when [gatekeeper] is there, not empty and not
    the password; and whenever the state after the handler differs from
    the state before, the answer was 200: without the password nothing
    is ever changed. *)
Theorem X2_post_authorisation server locals saveOk clock g :
  let r := handlePostSchedule server locals saveOk clock g in
  (resp_code (fst r) = 200
   ↔ server !! "gatekeeper"%string = Some superSecretPassword
     ∧ Forall (λ name, ∃ v, server !! name = Some v ∧ v ≠ EmptyString) required_fields)
  ∧ (resp_code (fst r) = 401
     ↔ ∃ v, server !! "gatekeeper"%string = Some v ∧ v ≠ EmptyString
            ∧ v ≠ superSecretPassword)
  ∧ (snd r ≠ g → resp_code (fst r) = 200).
Proof.
  intros r. subst r. rewrite <- accepted_iff.
  change (fst (handlePostSchedule server locals saveOk clock g))
    with (eval (handlePostSchedule server locals saveOk clock) g).
  change (snd (handlePostSchedule server locals saveOk clock g))
    with (exec (handlePostSchedule server locals saveOk clock) g).
  assert (resp_code (eval (handlePostSchedule server locals saveOk clock) g) = 200
          ↔ accepted server = true) as H200.
  { destruct (accepted server) eqn:Ha.
    - by destruct (handlePostSchedule_accepted server locals saveOk clock g Ha) as [_ ->].
    - destruct (handlePostSchedule_rejected server locals saveOk clock g Ha) as [_ [H|H]];
        rewrite H; done. }
  split; [exact H200|]. split.
  - rewrite handlePostSchedule_code.
    destruct (WString.not_null (server_arg server "gatekeeper")) eqn:Hn.
    + rewrite (hasArg_present _ _ Hn). cbn [negb orb].
      apply present_iff in Hn as (v & Hv & Hne).
      assert (server_arg server "gatekeeper" = v) as ->
        by (unfold server_arg; by rewrite Hv).
      rewrite Hv.
      destruct (String.eqb v superSecretPassword) eqn:He.
      * apply String.eqb_eq in He as ->. split.
        -- by destruct (serverHasRequiredArgs server).
        -- intros (v' & [= <-] & _ & ?). done.
      * apply String.eqb_neq in He. split; [eauto|done].
    + rewrite orb_true_r. split; [done|].
      intros (v & Hv & Hne & _).
      assert (WString.not_null (server_arg server "gatekeeper") = true) as Hn'
        by (apply present_iff; eauto).
      congruence.
  - intros Hne. apply H200. destruct (accepted server) eqn:Ha; [done|].
    by destruct (handlePostSchedule_rejected server locals saveOk clock g Ha) as [? _].
Qed.

Lemma X2_witness :
  snd (handlePostSchedule Example.post Example.locals true "Tisdag, 06:59:00" Example.fresh)
  ≠ Example.fresh
  ∧ resp_code (fst (handlePostSchedule Example.post Example.locals true
                      "Tisdag, 06:59:00" Example.fresh)) = 200.
Proof.
  assert (snd (handlePostSchedule Example.post Example.locals true "Tisdag, 06:59:00"
                 Example.fresh) ≠ Example.fresh) as Hne.
  { intros H. apply (f_equal (λ g, initialized (activeSchedules g))) in H.
    vm_compute in H. discriminate H. }
  split; [exact Hne|].
  exact (proj2 (proj2 (X2_post_authorisation Example.post Example.locals true
                         "Tisdag, 06:59:00" Example.fresh)) Hne).
Defined.

(** ** Daylight saving, restarts and the flash *)

Lemma same_but_alarms_rest g g' :
  same_but_alarms g g' →
  EEPROM g' = EEPROM g ∧ dstOffsetInSeconds g' = dstOffsetInSeconds g
  ∧ timeClient_offset g' = timeClient_offset g ∧ firstRun g' = firstRun g
  ∧ previousMillis g' = previousMillis g
  ∧ currentStatePersisted g' = currentStatePersisted g
  ∧ out_D1 g' = out_D1 g ∧ out_D2 g' = out_D2 g.
Proof.
  unfold same_but_alarms. destruct g, g'. cbn. intros [= ]. by repeat split.
Qed.

(** Apart from [activeSchedules] and the pool, [setSchedule] touches the
    two clock offsets and nothing else. *)
Lemma setSchedule_rest g d n dst wd wn :
  let g' := exec (setSchedule d n dst wd wn) g in
  EEPROM g' = EEPROM g
  ∧ dstOffsetInSeconds g' = (if dst then 3600 else 0)
  ∧ timeClient_offset g' = utcOffsetInSeconds + (if dst then 3600 else 0)
  ∧ firstRun g' = firstRun g ∧ previousMillis g' = previousMillis g
  ∧ currentStatePersisted g' = currentStatePersisted g
  ∧ out_D1 g' = out_D1 g ∧ out_D2 g' = out_D2 g.
Proof.
  intros g'. subst g'. unfold setSchedule. rewrite exec_bind.
  pose proof (setSchedule_teardown_only_Alarm g) as Ho.
  apply only_Alarm_eq with (p := Alarm (exec setSchedule_teardown g)) in Ho; [|done].
  rewrite Ho. unfold setSchedule_install. rewrite !exec_bind.
  cbn [exec eval modify gets fst snd timeClient_setTimeOffset timeClient_update mret M_ret].
  match goal with
  | |- context [exec (setAlarms ?w) ?G] =>
      pose proof (same_but_alarms_rest _ _ (setAlarms_same_but_alarms w G))
        as (H1 & H2 & H3 & H4 & H5 & H6 & H7 & H8);
      destruct (exec (setAlarms w) G)
  end.
  clear Ho. destruct g. cbn in *. by repeat split.
Qed.

Lemma setOutputState_exec g :
  exec setOutputState g
  = set_pin nightPin
      (drive (nightActive (currentState (activeSchedules g)))
         (nightIntensity (activeSchedules g)))
      (set_pin dayPin
         (drive (dayActive (currentState (activeSchedules g)))
            (dayIntensity (activeSchedules g))) g).
Proof. by destruct g as [[? ? ? ? ? ? ? ? ? [[] []]] ? ? ? ? ? ? ? ? ?]. Qed.

Lemma handlePostSchedule_rest server locals saveOk clock g :
  accepted server = true →
  let g' := exec (handlePostSchedule server locals saveOk clock) g in
  dstActive (activeSchedules g') = parsed_dst server
  ∧ dstOffsetInSeconds g' = (if parsed_dst server then 3600 else 0)
  ∧ timeClient_offset g' = utcOffsetInSeconds + (if parsed_dst server then 3600 else 0)
  ∧ eeprom_flash (EEPROM g')
    = (if saveOk then activeSchedules g' else eeprom_flash (EEPROM g))
  ∧ firstRun g' = firstRun g ∧ previousMillis g' = previousMillis g
  ∧ out_D1 g' = out_D1 g ∧ out_D2 g' = out_D2 g
  ∧ currentStatePersisted g' = saveOk
  ∧ persistedInEEPROM (activeSchedules g') = saveOk.
Proof.
  intros Ha g'. subst g'.
  destruct (handlePostSchedule_accepted server locals saveOk clock g Ha) as [-> _].
  rewrite saveSettings_exec.
  pose proof (setSchedule_rest (with_intensities server g) (parsed_day server locals)
    (parsed_night server locals) (parsed_dst server) (parsed_weekendDay server locals)
    (parsed_weekendNight server locals)) as (H1 & H2 & H3 & H4 & H5 & H6 & H7 & H8).
  pose proof (erase_ids_times _ _
    (setSchedule_stores (with_intensities server g) (parsed_day server locals)
       (parsed_night server locals) (parsed_dst server) (parsed_weekendDay server locals)
       (parsed_weekendNight server locals))) as (_ & _ & _ & _ & _ & _ & H9 & _).
  fold (after_setSchedule server locals g) in H1, H2, H3, H4, H5, H6, H7, H8, H9.
  destruct (after_setSchedule server locals g) as [[] ? ? ? ? ? ? ? ? ?].
  destruct g as [[] ? ? ? ? ? ? ? ? ?]. cbn in *. subst.
  destruct saveOk; by repeat split.
Qed.

(** X3.  After an accepted POST daylight saving is on exactly when the
    request carries [dst=on]: a POST without that field turns it off.
    The offset handed to the clock is then the UTC offset plus one hour,
    and without it the UTC offset alone. *)
Theorem X3_post_dst server locals saveOk clock g :
  accepted server = true →
  let g' := exec (handlePostSchedule server locals saveOk clock) g in
  (dstActive (activeSchedules g') = true ↔ server !! "dst"%string = Some "on"%string)
  ∧ dstOffsetInSeconds g' = (if dstActive (activeSchedules g') then 3600 else 0)
  ∧ timeClient_offset g' = utcOffsetInSeconds + dstOffsetInSeconds g'.
Proof.
  intros Ha g'.
  destruct (handlePostSchedule_rest server locals saveOk clock g Ha)
    as (H1 & H2 & H3 & _).
  fold g' in H1, H2, H3. rewrite H1, H2, H3. split; [|done].
  unfold parsed_dst, server_hasArg, server_arg.
  rewrite andb_true_iff, bool_decide_eq_true, String.eqb_eq.
  destruct (server !! "dst"%string) as [v|]; cbn.
  - split; [by intros [_ ->]|]. intros [= ->]. eauto.
  - split; [by intros [[? ?] _]|done].
Qed.

Lemma settings_erase_ids a b : erase_ids a = erase_ids b → settings a = settings b.
Proof.
  intros H. apply erase_ids_times in H as (H1&H2&H3&H4&_&_&H5&H6&H7&H8).
  unfold settings. congruence.
Qed.

Lemma startup_restores cap stored :
  persistedInEEPROM stored = true →
  let b := exec loop_firstRun (reset cap stored) in
  settings (activeSchedules b) = settings stored
  ∧ initialized (activeSchedules b) = true
  ∧ persistedInEEPROM (activeSchedules b) = false
  ∧ dstOffsetInSeconds b = (if dstActive stored then 3600 else 0)
  ∧ timeClient_offset b = utcOffsetInSeconds + dstOffsetInSeconds b
  ∧ pin_output dayPin b = drive (dayActive (currentState stored)) (dayIntensity stored)
  ∧ pin_output nightPin b
    = drive (nightActive (currentState stored)) (nightIntensity stored)
  ∧ firstRun b = false
  ∧ EEPROM b = mkEEPROM stored stored.
Proof.
  intros Hp b. subst b. rewrite loop_firstRun_exec. cbn [firstRun reset].
  rewrite readSavedSettings_exec. cbn [EEPROM set_firstRun reset eeprom_data]. rewrite Hp.
  cbv zeta.
  change (activeSchedules (restore (set_firstRun false (reset cap stored)))) with stored.
  rewrite Hp, setOutputState_exec.
  set (g1 := restore (set_firstRun false (reset cap stored))).
  pose proof (setSchedule_rest g1 (day stored) (night stored) (dstActive stored)
    (weekendDay stored) (weekendNight stored)) as (H1 & H2 & H3 & H4 & _).
  pose proof (setSchedule_stores g1 (day stored) (night stored) (dstActive stored)
    (weekendDay stored) (weekendNight stored)) as Hs.
  pose proof (erase_ids_times _ _ Hs) as (_&_&_&_&H5&H6&_&H7&H8&H9).
  apply settings_erase_ids in Hs.
  destruct (exec (setSchedule _ _ _ _ _) g1) as [a' ? ? ? ? ? ? ? ? ?].
  cbn in H1, H2, H3, H4, H5, H6, H7, H8, H9, Hs |- *. subst.
  repeat split; try done; congruence.
Qed.

(** X4.  Startup from a snapshot whose flag is true: after the first-run
    block of [loop] the state holds the snapshot's four schedules,
    daylight-saving choice, intensities and latched output state, is
    initialized, and has [persistedInEEPROM] false although the flash
    holds exactly this configuration; the clock offsets follow the
    snapshot's daylight-saving choice, and both pins are driven at once
    from the snapshot's latched output state. *)
Theorem X4_startup_restores cap stored :
  persistedInEEPROM stored = true →
  let b := exec loop_firstRun (reset cap stored) in
  settings (activeSchedules b) = settings stored
  ∧ initialized (activeSchedules b) = true
  ∧ persistedInEEPROM (activeSchedules b) = false
  ∧ dstOffsetInSeconds b = (if dstActive stored then 3600 else 0)
  ∧ timeClient_offset b = utcOffsetInSeconds + dstOffsetInSeconds b
  ∧ pin_output dayPin b = drive (dayActive (currentState stored)) (dayIntensity stored)
  ∧ pin_output nightPin b
    = drive (nightActive (currentState stored)) (nightIntensity stored)
  ∧ firstRun b = false
  ∧ EEPROM b = mkEEPROM stored stored.
Proof. apply startup_restores. Qed.

Lemma X4_witness :
  persistedInEEPROM (activeSchedules Example.scenario) = true
  ∧ settings (activeSchedules
               (exec loop_firstRun (reset 20 (activeSchedules Example.scenario))))
    = settings (activeSchedules Example.scenario)
  ∧ persistedInEEPROM
      (activeSchedules (exec loop_firstRun (reset 20 (activeSchedules Example.scenario))))
    = false.
Proof.
  assert (persistedInEEPROM (activeSchedules Example.scenario) = true) as Hp
    by (by vm_compute).
  split; [exact Hp|].
  pose proof (X4_startup_restores 20 (activeSchedules Example.scenario) Hp)
    as (H1 & _ & H2 & _).
  split; [exact H1|exact H2].
Defined.

(** *** What reaches the flash *)

Global Instance same_EEPROM_preorder : PreOrder same_EEPROM.
Proof.
  split; [by intros g|]. intros g1 g2 g3 H1 H2. unfold same_EEPROM in *. congruence.
Qed.







(** X6.  Save and restart, by POST: after an accepted POST whose commit
    succeeded, a restart followed by the first-run block of [loop] gives
    back the schedules, daylight-saving choice, intensities and latched
    output state of the moment after the POST, with the same clock
    offsets, and drives the pins from that output state; only the alarm
    handles are new and [persistedInEEPROM] is false. *)
Theorem X6_post_survives_restart cap server locals clock g :
  accepted server = true →
  let g' := exec (handlePostSchedule server locals true clock) g in
  let b := exec loop_firstRun (reboot cap g') in
  settings (activeSchedules b) = settings (activeSchedules g')
  ∧ initialized (activeSchedules b) = true
  ∧ persistedInEEPROM (activeSchedules b) = false
  ∧ dstOffsetInSeconds b = dstOffsetInSeconds g'
  ∧ timeClient_offset b = timeClient_offset g'
  ∧ pin_output dayPin b
    = drive (dayActive (currentState (activeSchedules g'))) (dayIntensity (activeSchedules g'))
  ∧ pin_output nightPin b
    = drive (nightActive (currentState (activeSchedules g')))
        (nightIntensity (activeSchedules g')).
Proof.
  intros Ha g' b.
  destruct (handlePostSchedule_rest server locals true clock g Ha)
    as (H1 & H2 & H3 & H4 & _ & _ & _ & _ & _ & H5).
  fold g' in H1, H2, H3, H4, H5.
  assert (b = exec loop_firstRun (reset cap (activeSchedules g'))) as Hb
    by (subst b; unfold reboot; by rewrite H4).
  pose proof (startup_restores cap (activeSchedules g') H5)
    as (K1 & K2 & K3 & K4 & K5 & K6 & K7 & _).
  rewrite <- Hb in K1, K2, K3, K4, K5, K6, K7.
  repeat split; try done.
  - rewrite K4, H2, H1. done.
  - rewrite K5, K4, H3, H1. done.
Qed.

Lemma X3_witness :
  accepted Example2.post_dst = true
  ∧ dstActive (activeSchedules
                 (exec (handlePostSchedule Example2.post_dst Example.locals true
                          "Tisdag, 06:59:00") Example.fresh)) = true
  ∧ timeClient_offset
      (exec (handlePostSchedule Example2.post_dst Example.locals true
               "Tisdag, 06:59:00") Example.fresh) = 7200.
Proof.
  assert (accepted Example2.post_dst = true) as Ha by (by vm_compute).
  split; [exact Ha|].
  pose proof (X3_post_dst Example2.post_dst Example.locals true "Tisdag, 06:59:00"
                Example.fresh Ha) as (H1 & H2 & H3).
  assert (dstActive (activeSchedules
            (exec (handlePostSchedule Example2.post_dst Example.locals true
                     "Tisdag, 06:59:00") Example.fresh)) = true) as Hd
    by (apply H1; by vm_compute).
  split; [exact Hd|]. rewrite H3, H2, Hd. reflexivity.
Defined.

Lemma X6_witness :
  accepted Example.post_weekend = true
  ∧ settings (activeSchedules
                (exec loop_firstRun
                   (reboot 20 (exec (handlePostSchedule Example.post_weekend Example.locals
                                       true "Torsdag, 12:00:00") Example.scenario))))
    = settings (activeSchedules
                  (exec (handlePostSchedule Example.post_weekend Example.locals
                           true "Torsdag, 12:00:00") Example.scenario)).
Proof.
  assert (accepted Example.post_weekend = true) as Ha by (by vm_compute).
  split; [exact Ha|].
  exact (proj1 (X6_post_survives_restart 20 Example.post_weekend Example.locals
                  "Torsdag, 12:00:00" Example.scenario Ha)).
Defined.

(** X7.  Save and restart, by a firing: after an alarm handler whose
    commit succeeded, a restart followed by the first-run block of [loop]
    gives back the settings of the moment after the firing, the latched
    output state included, and drives the pins from it.  After a handler
    whose commit failed, a restart starts from the same stored snapshot
    as before the firing: the firing is forgotten. *)
Theorem X7_firing_survives_restart cap h g :
  let g' := exec (call_handler h true) g in
  let b := exec loop_firstRun (reboot cap g') in
  settings (activeSchedules b) = settings (activeSchedules g')
  ∧ pin_output dayPin b
    = drive (dayActive (currentState (activeSchedules g'))) (dayIntensity (activeSchedules g'))
  ∧ pin_output nightPin b
    = drive (nightActive (currentState (activeSchedules g')))
        (nightIntensity (activeSchedules g'))
  ∧ reboot cap (exec (call_handler h false) g) = reboot cap g.
Proof.
  intros g' b.
  assert (eeprom_flash (EEPROM g') = activeSchedules g'
          ∧ persistedInEEPROM (activeSchedules g') = true) as [Hf Hp].
  { subst g'. rewrite call_handler_exec. by destruct g as [[] ? ? ? ? ? ? ? ? ?]. }
  assert (b = exec loop_firstRun (reset cap (activeSchedules g'))) as Hb
    by (subst b; unfold reboot; by rewrite Hf).
  pose proof (startup_restores cap (activeSchedules g') Hp)
    as (K1 & _ & _ & _ & _ & K6 & K7 & _).
  rewrite <- Hb in K1, K6, K7.
  repeat split; try done.
  unfold reboot. rewrite call_handler_exec. by destruct g.
Qed.

(** ** What a form field can be read as *)

Lemma all_ascii_complete c : c ∈ all_ascii.
Proof.
  rewrite <- (ascii_nat_embedding c). apply list_elem_of_fmap_2, elem_of_seq.
  pose proof (nat_ascii_bounded c). lia.
Qed.

Lemma toInt_two_chars_all :
  Forall (λ c1, two_char_range (WString.toInt (String c1 EmptyString))
                ∧ Forall (λ c2, two_char_range
                                  (WString.toInt (String c1 (String c2 EmptyString))))
                    all_ascii)
    all_ascii.
Proof. unfold two_char_range. apply (bool_decide_unpack _). by vm_compute. Qed.

Lemma substring_0_2 s :
  WString.substring 0 2 s
  = match s with
    | EmptyString => EmptyString
    | String c1 EmptyString => String c1 EmptyString
    | String c1 (String c2 _) => String c1 (String c2 EmptyString)
    end.
Proof. by destruct s as [|c1 [|c2 s]]. Qed.

Lemma arg_hour_range server name : two_char_range (arg_hour server name).
Proof.
  unfold arg_hour. rewrite substring_0_2.
  pose proof toInt_two_chars_all as H. rewrite Forall_forall in H.
  destruct (server_arg server name) as [|c1 [|c2 s]].
  - unfold two_char_range. by vm_compute.
  - apply (H c1), all_ascii_complete.
  - destruct (H c1 (all_ascii_complete c1)) as [_ H2].
    rewrite Forall_forall in H2. apply H2, all_ascii_complete.
Qed.

(** X8.  The hour of a time field is read from its first two characters
    alone, so whatever is posted, after an accepted POST every stored
    day and night start and end hour and both weekend start hours lie
    between -9 and 99. *)
Theorem X8_stored_hours_bounded server locals saveOk clock g :
  accepted server = true →
  let a := activeSchedules (exec (handlePostSchedule server locals saveOk clock) g) in
  Forall (λ h, -9 ≤ h ≤ 99)
    [startHour (day a); endHour (day a); startHour (night a); endHour (night a);
     startHour (weekendDay a); startHour (weekendNight a)].
Proof.
  intros Ha a.
  destruct (handlePostSchedule_stores server locals saveOk clock g Ha)
    as (H1 & H2 & H3 & H4 & _).
  fold a in H1, H2, H3, H4. unfold times in *.
  injection H1 as -> _ -> _. injection H2 as -> _ -> _.
  injection H3 as -> _ _ _. injection H4 as -> _ _ _.
  unfold parsed_day, parsed_night, parsed_weekendDay, parsed_weekendNight.
  destruct (serverHasOptionalArgs server); cbn;
    repeat first [ apply List.Forall_nil
                 | apply List.Forall_cons; [first [apply arg_hour_range|lia]|] ].
Qed.

Lemma X8_witness :
  accepted Example.post_hour24 = true
  ∧ Forall (λ h, -9 ≤ h ≤ 99)
      (let a := activeSchedules
                  (exec (handlePostSchedule Example.post_hour24 Example.locals true
                           "Tisdag, 07:00:00") Example.scenario) in
       [startHour (day a); endHour (day a); startHour (night a); endHour (night a);
        startHour (weekendDay a); startHour (weekendNight a)]).
Proof.
  assert (accepted Example.post_hour24 = true) as Ha by (by vm_compute).
  split; [exact Ha|].
  exact (X8_stored_hours_bounded Example.post_hour24 Example.locals true
           "Tisdag, 07:00:00" Example.scenario Ha).
Defined.

Lemma read_write_time_box :
  Forall (λ h, Forall (λ m, read_time (write_time h m) = (h, m) ↔ 0 ≤ h ∧ 0 ≤ m)
                 (seqZ (-9) 109))
    (seqZ (-9) 109).
Proof. apply (bool_decide_unpack _). by vm_compute. Qed.

(** X9.  For hours and minutes between -9 and 99, the text shown for a
    time reads back, the way a form field is read, as the same hour and
    minute exactly when neither is negative: out-of-range values such as
    24:00 or 7:75 survive the trip, a negative one does not. *)
Theorem X9_shown_time_reads_back h m :
  -9 ≤ h ≤ 99 → -9 ≤ m ≤ 99 →
  (read_time (write_time h m) = (h, m) ↔ 0 ≤ h ∧ 0 ≤ m).
Proof.
  intros Hh Hm. pose proof read_write_time_box as H.
  rewrite Forall_forall in H. specialize (H h). rewrite elem_of_seqZ in H.
  specialize (H ltac:(lia)). rewrite Forall_forall in H.
  apply H. rewrite elem_of_seqZ. lia.
Qed.

Lemma X9_witness :
  -9 ≤ 24 ≤ 99 ∧ -9 ≤ 75 ≤ 99 ∧ read_time (write_time 24 75) = (24, 75).
Proof.
  assert (-9 ≤ 24 ≤ 99) as Hh by lia. assert (-9 ≤ 75 ≤ 99) as Hm by lia.
  split; [exact Hh|]. split; [exact Hm|].
  apply (X9_shown_time_reads_back 24 75 Hh Hm). lia.
Defined.

(** ** The alarm slots after a POST *)

Lemma handlePostSchedule_Alarm server locals saveOk clock g :
  accepted server = true →
  Alarm (exec (handlePostSchedule server locals saveOk clock) g)
  = Alarm (after_setSchedule server locals g).
Proof.
  intros Ha.
  destruct (handlePostSchedule_accepted server locals saveOk clock g Ha) as [-> _].
  rewrite saveSettings_exec. by destruct (after_setSchedule _ _ _).
Qed.

Lemma with_intensities_same_alarms server g : same_alarms g (with_intensities server g).
Proof. by destruct g as [[] ? ? ? ? ? ? ? ? ?]. Qed.

Lemma after_setSchedule_installed cap stored inputs server locals :
  (15 ≤ cap)%nat →
  installed true (after_setSchedule server locals (run inputs (reset cap stored))).
Proof.
  intros Hc. pose proof (run_Inv cap stored inputs Hc) as HI.
  apply (same_alarms_Inv _ _ _ (with_intensities_same_alarms server _)) in HI.
  apply setSchedule_installed; [by eapply Inv_good|]. destruct HI as [-> _]. done.
Qed.

(** X10.  In any state the loop reaches (pool of at least fifteen slots),
    an accepted POST leaves the pool holding 15 alarms when all four
    weekend fields are there and the weekend day start hour does not read
    as -1, and 4 alarms otherwise.  So a weekend day start such as
    ["-1:30"] collides with the "no weekend" mark: the request is
    accepted, its weekend times are stored, and no weekend alarm is set. *)
Theorem X10_slots_after_post cap stored inputs server locals saveOk clock :
  (15 ≤ cap)%nat → accepted server = true →
  let g' := exec (handlePostSchedule server locals saveOk clock)
              (run inputs (reset cap stored)) in
  TimeAlarms.count (Alarm g')
  = if serverHasOptionalArgs server && negb (arg_hour server "weekendDayStart" =? -1)
    then 15%nat else 4%nat.
Proof.
  intros Hc Ha g'. subst g'. rewrite handlePostSchedule_Alarm by done.
  rewrite (count_installed _ _ (after_setSchedule_installed cap stored inputs server locals Hc)).
  unfold after_setSchedule. rewrite setSchedule_weekendActive.
  unfold parsed_weekendDay. by destruct (serverHasOptionalArgs server).
Qed.

Lemma X10_witness :
  (15 ≤ 20)%nat ∧ accepted Example2.post_minus_one = true
  ∧ serverHasOptionalArgs Example2.post_minus_one = true
  ∧ TimeAlarms.count
      (Alarm (exec (handlePostSchedule Example2.post_minus_one Example.locals true
                      "Tisdag, 07:00:00") (run [Example.weekend_pass] Example.fresh)))
    = 4%nat.
Proof.
  assert (accepted Example2.post_minus_one = true) as Ha by (by vm_compute).
  split; [lia|]. split; [exact Ha|]. split; [by vm_compute|].
  refine (X10_slots_after_post 20 zero_StateContainer [Example.weekend_pass]
            Example2.post_minus_one Example.locals true "Tisdag, 07:00:00" _ Ha).
  lia.
Defined.

(** ** The once-a-minute gate *)

(** X11.  A pass of [loop] after the first, with no alarm due and no
    request, in which [millis()] has advanced by [elapsed] since the last
    tick, counted modulo 2^32: when [elapsed] is less than 60000 the pass
    changes nothing at all; otherwise it records the new [millis()] and
    runs the once-a-minute block.  The gate is therefore not upset when
    [millis()] wraps around. *)
Theorem X11_minute_gate g i elapsed :
  firstRun g = false → in_due i = [] → in_request i = None →
  0 ≤ previousMillis g < 2 ^ 32 → 0 ≤ elapsed < 2 ^ 32 →
  in_millis i = (previousMillis g + elapsed) `mod` 2 ^ 32 →
  step g i
  = if 60000 <=? elapsed
    then exec (loop_tick (in_weekday i)) (set_previousMillis (in_millis i) g)
    else g.
Proof.
  intros Hf Hd Hr Hp He Hm. unfold step. rewrite loop_exec, Hd, Hr. cbv zeta.
  assert (exec (Alarm_delay []) g = g) as -> by reflexivity.
  rewrite loop_firstRun_exec, Hf, Hm.
  replace ((((previousMillis g + elapsed) `mod` 2 ^ 32) - previousMillis g) `mod` 2 ^ 32)
    with elapsed; [done|].
  rewrite Zminus_mod_idemp_l.
  replace (previousMillis g + elapsed - previousMillis g) with elapsed by lia.
  symmetry. apply Z.mod_small. lia.
Qed.

Lemma X11_witness :
  firstRun Example.weekend_state = false ∧ in_due Example2.idle_pass = []
  ∧ in_request Example2.idle_pass = None
  ∧ 0 ≤ previousMillis Example.weekend_state < 2 ^ 32 ∧ 0 ≤ 30000 < 2 ^ 32
  ∧ in_millis Example2.idle_pass = (previousMillis Example.weekend_state + 30000) `mod` 2 ^ 32
  ∧ step Example.weekend_state Example2.idle_pass = Example.weekend_state.
Proof.
  assert (firstRun Example.weekend_state = false) as H1 by (by vm_compute).
  assert (previousMillis Example.weekend_state = 0) as E by (by vm_compute).
  assert (0 ≤ previousMillis Example.weekend_state < 2 ^ 32) as H4 by (rewrite E; lia).
  assert (0 ≤ 30000 < 2 ^ 32) as H5 by lia.
  assert (in_millis Example2.idle_pass
          = (previousMillis Example.weekend_state + 30000) `mod` 2 ^ 32) as H6
    by (rewrite E; reflexivity).
  split; [exact H1|]. split; [reflexivity|]. split; [reflexivity|].
  split; [exact H4|]. split; [exact H5|]. split; [exact H6|].
  etrans; [exact (X11_minute_gate Example.weekend_state Example2.idle_pass 30000 H1
                    eq_refl eq_refl H4 H5 H6)|].
  by vm_compute.
Defined.

(** ** Invariants of the loop *)

Lemma run_ind (P : Globals → Prop) inputs g :
  P g → (∀ g i, P g → P (step g i)) → P (run inputs g).
Proof.
  intros H0 Hs. unfold run. revert g H0.
  induction inputs as [|i inputs IH]; intros g H0; [done|]. cbn. apply IH, Hs, H0.
Qed.

Lemma run_snoc inputs i g : run (inputs ++ [i]) g = step (run inputs g) i.
Proof. unfold run. by rewrite foldl_app. Qed.

(** X12.  In every state the loop reaches from reset (pool of at least
    fifteen slots) the pool keeps its size and holds no alarm before a
    schedule is installed, and after that exactly 15 alarms when there is
    a weekend override and exactly 4 when there is none: however many
    schedules are submitted, no slot leaks. *)
Theorem X12_alarm_count cap stored inputs :
  (15 ≤ cap)%nat →
  let g := run inputs (reset cap stored) in
  length (Alarm g) = cap
  ∧ TimeAlarms.count (Alarm g)
    = if initialized (activeSchedules g)
      then if weekendActive (activeSchedules g) then 15%nat else 4%nat
      else 0%nat.
Proof.
  intros Hc g. destruct (run_Inv cap stored inputs Hc) as [Hl H]. fold g in Hl, H.
  split; [done|]. destruct H as [[-> Hf]|[_ [armed Hi]]].
  - rewrite Hf. apply count_replicate.
  - rewrite (count_installed _ _ Hi). by destruct Hi as [-> _].
Qed.

Lemma X12_witness :
  (15 ≤ 20)%nat
  ∧ TimeAlarms.count (Alarm (run [Example.weekend_pass; Example.weekend_pass] Example.fresh))
    = 15%nat.
Proof.
  split; [lia|].
  assert (15 ≤ 20)%nat as Hc by lia.
  destruct (X12_alarm_count 20 zero_StateContainer
              [Example.weekend_pass; Example.weekend_pass] Hc) as [_ H].
  unfold Example.fresh. rewrite H. by vm_compute.
Defined.

Global Instance same_pins_preorder : PreOrder same_pins.
Proof.
  split.
  - by intros g.
  - intros g1 g2 g3 [? ?] [? ?]. split; congruence.
Qed.

Lemma call_handler_same_pins h ok : preserves same_pins (call_handler h ok).
Proof. intros g. pose proof (call_handler_exec h ok g) as H. cbv zeta in H. rewrite H. by destruct g. Qed.

Lemma Alarm_delay_same_pins due : preserves same_pins (Alarm_delay due).
Proof. unfold Alarm_delay. frame. apply call_handler_same_pins. Qed.

Lemma setSchedule_initialized g d n dst wd wn :
  initialized (activeSchedules (exec (setSchedule d n dst wd wn) g)) = true.
Proof.
  by destruct (erase_ids_times _ _ (setSchedule_stores g d n dst wd wn))
    as (_ & _ & _ & _ & _ & -> & _).
Qed.

Lemma restore_activeSchedules g : activeSchedules (restore g) = eeprom_data (EEPROM g).
Proof. by destruct g. Qed.

Lemma loop_firstRun_uninitialized g :
  initialized (activeSchedules (exec loop_firstRun g)) = false →
  initialized (activeSchedules g) = false ∧ same_pins g (exec loop_firstRun g).
Proof.
  rewrite loop_firstRun_exec. destruct (firstRun g); [|done].
  rewrite readSavedSettings_exec. cbv zeta.
  change (EEPROM (set_firstRun false g)) with (EEPROM g).
  destruct (persistedInEEPROM (eeprom_data (EEPROM g))) eqn:Hs.
  - rewrite restore_activeSchedules.
    change (EEPROM (set_firstRun false g)) with (EEPROM g). rewrite Hs.
    destruct (setOutputState_same_alarms (exec (setSchedule (day (eeprom_data (EEPROM g)))
      (night (eeprom_data (EEPROM g))) (dstActive (eeprom_data (EEPROM g)))
      (weekendDay (eeprom_data (EEPROM g))) (weekendNight (eeprom_data (EEPROM g))))
      (restore (set_firstRun false g)))) as (_ & -> & _).
    by rewrite setSchedule_initialized.
  - change (activeSchedules (set_firstRun false g)) with (activeSchedules g).
    destruct (persistedInEEPROM (activeSchedules g)).
    + destruct (setOutputState_same_alarms (exec (setSchedule (day (activeSchedules g))
        (night (activeSchedules g)) (dstActive (activeSchedules g))
        (weekendDay (activeSchedules g)) (weekendNight (activeSchedules g)))
        (set_firstRun false g))) as (_ & -> & _).
      by rewrite setSchedule_initialized.
    + intros H. split; [exact H|]. by destruct g.
Qed.

Lemma loop_tick_uninitialized wd g :
  initialized (activeSchedules (exec (loop_tick wd) g)) = false →
  exec (loop_tick wd) g = g.
Proof.
  pose proof (loop_tick_same_activeSchedules wd g) as Ha.
  unfold same_activeSchedules in Ha. rewrite Ha. intros Hi.
  by rewrite loop_tick_exec, Hi.
Qed.

Lemma handlePostSchedule_uninitialized server locals saveOk clock g :
  initialized (activeSchedules (exec (handlePostSchedule server locals saveOk clock) g))
  = false →
  exec (handlePostSchedule server locals saveOk clock) g = g.
Proof.
  destruct (accepted server) eqn:Ha.
  - pose proof (handlePostSchedule_stores server locals saveOk clock g Ha) as H.
    cbv zeta in H. destruct H as (_ & _ & _ & _ & _ & _ & ->). done.
  - by destruct (handlePostSchedule_rejected server locals saveOk clock g Ha) as [-> _].
Qed.

(** A pass of the loop never takes [initialized] back, and while it is
    unset the pass leaves the pins alone. *)
Lemma step_uninitialized g i :
  initialized (activeSchedules (step g i)) = false →
  initialized (activeSchedules g) = false ∧ same_pins g (step g i).
Proof.
  unfold step. rewrite loop_exec. cbv zeta.
  pose proof (Alarm_delay_same_alarms (in_due i) g) as (_ & Hi1 & _).
  pose proof (Alarm_delay_same_pins (in_due i) g) as Hp1.
  set (g1 := exec (Alarm_delay (in_due i)) g) in *.
  set (g2 := exec loop_firstRun g1).
  set (g3 := if interval <=? _ then _ else _).
  intros H.
  assert (initialized (activeSchedules g3) = false ∧ same_pins g3
            (match in_request i with
             | Some r => exec (handlePostSchedule (req_args r) (req_locals r)
                                 (req_saveOk r) (req_clock r)) g3
             | None => g3
             end)) as [H3 Hp3].
  { destruct (in_request i) as [r|]; [|done].
    rewrite (handlePostSchedule_uninitialized _ _ _ _ _ H) in H |- *. done. }
  assert (initialized (activeSchedules g2) = false ∧ same_pins g2 g3) as [H2 Hp2].
  { subst g3. destruct (interval <=? _); [|done].
    rewrite (loop_tick_uninitialized _ _ H3) in H3 |- *.
    split; [|by destruct g2]. by destruct g2. }
  destruct (loop_firstRun_uninitialized g1 H2) as [H1 Hp].
  split; [congruence|]. etrans; [exact Hp1|]. etrans; [exact Hp|]. etrans; [exact Hp2|].
  exact Hp3.
Qed.

(** X13.  If the state the loop has reached from reset is not
    initialized, then it never was in any earlier pass, and in all of them
    neither output pin has been written: until a schedule is installed,
    by a POST or from the EEPROM, the sketch drives nothing. *)
Theorem X13_dark_until_scheduled cap stored inputs :
  initialized (activeSchedules (run inputs (reset cap stored))) = false →
  ∀ n, let g := run (take n inputs) (reset cap stored) in
       initialized (activeSchedules g) = false
       ∧ out_D1 g = PinUnset ∧ out_D2 g = PinUnset.
Proof.
  induction inputs as [|i inputs IH] using rev_ind; intros H n.
  - by rewrite take_nil.
  - rewrite run_snoc in H. destruct (step_uninitialized _ _ H) as [H' [Hp1 Hp2]].
    specialize (IH H'). destruct (decide (n ≤ length inputs)%nat) as [Hn|Hn].
    + rewrite take_app_le by done. apply IH.
    + rewrite take_ge by (rewrite length_app; cbn; lia).
      cbv zeta. rewrite run_snoc. split; [done|].
      specialize (IH (length inputs)). rewrite firstn_all in IH. cbv zeta in IH.
      destruct IH as (_ & ? & ?). split; congruence.
Qed.

Lemma X13_witness :
  initialized (activeSchedules
                 (run [Example2.idle_pass; Example2.idle_pass] Example.fresh)) = false
  ∧ out_D1 (run [Example2.idle_pass] Example.fresh) = PinUnset.
Proof.
  assert (initialized (activeSchedules
            (run [Example2.idle_pass; Example2.idle_pass] Example.fresh)) = false) as H
    by (by vm_compute).
  split; [exact H|].
  apply (X13_dark_until_scheduled 20 zero_StateContainer
           [Example2.idle_pass; Example2.idle_pass] H 1%nat).
Defined.

(** ** The every-day alarms without a weekend override *)

Lemma installed_unique a1 a2 g : installed a1 g → installed a2 g → a1 = a2.
Proof.
  intros (_ & _ & k1 & H1) (_ & _ & k2 & H2). rewrite H1 in H2. clear H1.
  unfold installed_pool in H2.
  destruct a1, a2; try done; exfalso; destruct (weekendActive _).
  - apply (f_equal (λ l, l !! 11%nat)) in H2. vm_compute in H2. discriminate H2.
  - apply (f_equal (λ l, l !! 0%nat)) in H2. vm_compute in H2. discriminate H2.
  - apply (f_equal (λ l, l !! 11%nat)) in H2. vm_compute in H2. discriminate H2.
  - apply (f_equal (λ l, l !! 0%nat)) in H2. vm_compute in H2. discriminate H2.
Qed.

Lemma installed_regular_armed g : installed true g → regular_armed g.
Proof. intros H armed Hi _. by apply (installed_unique _ _ g). Qed.

Lemma uninitialized_regular_armed g :
  initialized (activeSchedules g) = false → regular_armed g.
Proof. intros H armed (Hi & _) _. congruence. Qed.

Lemma same_alarms_sym g g' : same_alarms g g' → same_alarms g' g.
Proof. intros (?&?&?&?&?&?&?). by repeat split. Qed.

Lemma same_alarms_regular_armed g g' :
  same_alarms g g' → regular_armed g → regular_armed g'.
Proof.
  intros Hs HP armed Hi Hw. apply same_alarms_sym in Hs.
  apply (HP armed); [by apply (same_alarms_installed _ _ _ Hs)|].
  destruct Hs as (_ & _ & _ & _ & Hwd & _). unfold weekendActive in *. by rewrite Hwd.
Qed.

Lemma loop_firstRun_regular_armed cap g :
  (15 ≤ cap)%nat → Inv cap g → regular_armed g → regular_armed (exec loop_firstRun g).
Proof.
  intros Hc HI HP.
  destruct (initialized (activeSchedules (exec loop_firstRun g))) eqn:Hi;
    [|by apply uninitialized_regular_armed].
  revert Hi. rewrite loop_firstRun_exec. destruct (firstRun g) eqn:Hfr; [|done].
  destruct HI as [Hl [[Hini Hfree]|[? _]]]; [|congruence].
  rewrite readSavedSettings_exec. cbv zeta.
  change (EEPROM (set_firstRun false g)) with (EEPROM g).
  set (g2 := if persistedInEEPROM (eeprom_data _) then _ else _).
  assert (Alarm g2 = Alarm g) as HA.
  { subst g2. destruct (persistedInEEPROM _); by destruct g. }
  destruct (persistedInEEPROM (activeSchedules g2)) eqn:Hp.
  - intros _. eapply same_alarms_regular_armed; [apply setOutputState_same_alarms|].
    apply installed_regular_armed, setSchedule_installed; [|rewrite HA; lia].
    left. unfold pool_free in *. by rewrite HA.
  - intros Hi. apply uninitialized_regular_armed.
    subst g2. destruct (persistedInEEPROM (eeprom_data (EEPROM g))) eqn:Hs.
    + rewrite restore_activeSchedules in Hp.
      change (EEPROM (set_firstRun false g)) with (EEPROM g) in Hp. congruence.
    + exact Hini.
Qed.

Lemma loop_tick_regular_armed wd g :
  regular_armed g → regular_armed (exec (loop_tick wd) g).
Proof.
  intros HP armed Hi Hw.
  pose proof (loop_tick_same_activeSchedules wd g) as Ha.
  unfold same_activeSchedules in Ha. rewrite Ha in Hw.
  rewrite loop_tick_exec in Hi. apply (HP armed); [|done].
  destruct (initialized (activeSchedules g)); [|done]. rewrite Hw in Hi.
  apply (same_alarms_installed _ _ _ (same_alarms_sym _ _ (setOutputState_same_alarms g))).
  exact Hi.
Qed.

Lemma handlePostSchedule_regular_armed cap server locals saveOk clock g :
  (15 ≤ cap)%nat → Inv cap g → regular_armed g →
  regular_armed (exec (handlePostSchedule server locals saveOk clock) g).
Proof.
  intros Hc HI HP. destruct (accepted server) eqn:Ha.
  - destruct (handlePostSchedule_accepted server locals saveOk clock g Ha) as [-> _].
    assert (∀ b g', same_alarms g' (set_currentStatePersisted b g')) as Hc'
      by (by intros ? [[] ? ? ? ? ? ? ? ? ?]).
    eapply same_alarms_regular_armed; [apply Hc'|].
    eapply same_alarms_regular_armed; [apply saveSettings_same_alarms|].
    apply installed_regular_armed.
    apply (same_alarms_Inv _ _ _ (with_intensities_same_alarms server g)) in HI.
    apply setSchedule_installed; [by eapply Inv_good|]. destruct HI as [-> _]. done.
  - by destruct (handlePostSchedule_rejected server locals saveOk clock g Ha) as [-> _].
Qed.

Lemma step_regular_armed cap g i :
  (15 ≤ cap)%nat → Inv cap g ∧ regular_armed g →
  Inv cap (step g i) ∧ regular_armed (step g i).
Proof.
  intros Hc [HI HP]. split; [by apply step_Inv|].
  unfold step. rewrite loop_exec. cbv zeta.
  apply (same_alarms_regular_armed _ _ (Alarm_delay_same_alarms (in_due i) g)) in HP.
  apply (same_alarms_Inv _ _ _ (Alarm_delay_same_alarms (in_due i) g)) in HI.
  apply (loop_firstRun_regular_armed _ _ Hc HI) in HP.
  apply (loop_firstRun_Inv _ _ Hc) in HI as [HI Hf].
  set (g2 := exec loop_firstRun _) in *.
  set (g3 := if interval <=? _ then _ else _).
  assert (Inv cap g3 ∧ regular_armed g3) as [HI3 HP3].
  { subst g3. destruct (interval <=? _); [|done].
    assert (same_alarms g2 (set_previousMillis (in_millis i) g2)) as Hs
      by (by destruct g2 as [[] ? ? ? ? ? ? ? ? ?]).
    apply (same_alarms_Inv _ _ _ Hs) in HI.
    apply (same_alarms_regular_armed _ _ Hs) in HP.
    split; [by apply loop_tick_Inv|by apply loop_tick_regular_armed]. }
  destruct (in_request i); [|done]. by apply (handlePostSchedule_regular_armed cap).
Qed.

Lemma run_regular_armed cap stored inputs :
  (15 ≤ cap)%nat →
  Inv cap (run inputs (reset cap stored)) ∧ regular_armed (run inputs (reset cap stored)).
Proof.
  intros Hc. apply (run_ind (λ g, Inv cap g ∧ regular_armed g)).
  - split; [apply reset_Inv|]. by apply uninitialized_regular_armed.
  - intros g i. by apply step_regular_armed.
Qed.

(** X14.  In every state the loop reaches from reset (pool of at least
    fifteen slots) that is initialized and has no weekend override, the
    pool holds exactly the four every-day alarms, all enabled, at the
    stored start and end of day and of night, in slots 0 to 3, and the
    state's handles name these slots.  So without a weekend override no
    pass of the loop ever disables an alarm. *)
Theorem X14_regular_pool cap stored inputs :
  (15 ≤ cap)%nat →
  let g := run inputs (reset cap stored) in
  let a := activeSchedules g in
  initialized a = true → startHour (weekendDay a) = -1 →
  Alarm g = (Some <$> regular_alarms true a) ++ replicate (cap - 4) None
  ∧ take 2 (vec_to_list (timerIds (day a))) = [0; 1]
  ∧ take 2 (vec_to_list (timerIds (night a))) = [2; 3].
Proof.
  intros Hc g a Hini Hw. destruct (run_regular_armed cap stored inputs Hc) as [HI HP].
  fold g in HI, HP.
  assert (weekendActive a = false) as Hwa by (unfold weekendActive; by rewrite Hw).
  destruct HI as [Hl [[? _]|[_ [armed Hi]]]]; [subst a; congruence|].
  rewrite (HP armed Hi Hwa) in Hi. destruct Hi as (_ & Hids & k & Hp).
  unfold installed_ids, installed_pool in *. fold a in Hids, Hp.
  rewrite Hwa in Hids, Hp. cbn [app] in Hp. split; [|done].
  rewrite Hp. do 2 f_equal. rewrite Hp in Hl.
  rewrite length_app, length_fmap, length_replicate in Hl. cbn in Hl. lia.
Qed.

Lemma X14_witness :
  (15 ≤ 20)%nat
  ∧ initialized (activeSchedules (run [Example2.scenario_pass] Example.fresh)) = true
  ∧ startHour (weekendDay (activeSchedules (run [Example2.scenario_pass] Example.fresh)))
    = -1
  ∧ Alarm (run [Example2.scenario_pass] Example.fresh)
    = (Some <$> regular_alarms true
                  (activeSchedules (run [Example2.scenario_pass] Example.fresh)))
      ++ replicate 16 None.
Proof.
  assert (15 ≤ 20)%nat as Hc by lia.
  assert (initialized (activeSchedules (run [Example2.scenario_pass] Example.fresh)) = true)
    as Hi by (by vm_compute).
  assert (startHour (weekendDay (activeSchedules
            (run [Example2.scenario_pass] Example.fresh))) = -1) as Hw by (by vm_compute).
  split; [exact Hc|]. split; [exact Hi|]. split; [exact Hw|].
  exact (proj1 (X14_regular_pool 20 zero_StateContainer [Example2.scenario_pass] Hc Hi Hw)).
Defined.

(** ** The week with a weekend override *)

Lemma omap_id_Some {A} (l : list A) : omap id (Some <$> l) = l.
Proof. induction l as [|x l IH]; [done|]. cbn. by rewrite IH. Qed.

Lemma omap_id_replicate_None {A} k : omap id (replicate k (@None A)) = [].
Proof. induction k as [|k IH]; [done|]. cbn. exact IH. Qed.

Lemma firing_on_pool d (l : list AlarmClass) k :
  firing_on d ((Some <$> l) ++ replicate k None)
  = filter (λ a, may_fire_on d a = true) l.
Proof.
  unfold firing_on.
  by rewrite omap_app, omap_id_Some, omap_id_replicate_None, app_nil_r.
Qed.

Lemma firing_on_installed d g :
  installed (negb (is_weekend (dow_to_int d))) g →
  weekendActive (activeSchedules g) = true →
  firing_on d (Alarm g) = week_plan d (activeSchedules g).
Proof.
  intros (_ & _ & k & ->) Hw. unfold installed_pool. rewrite Hw, firing_on_pool.
  destruct d; vm_compute; reflexivity.
Qed.

(** X17.  Take any state the loop reaches from reset (pool of at least
    fifteen slots) that is initialized and has a weekend override, and let
    the once-a-minute block run on day [d].  The alarms that are enabled
    and can fire on that day are then: from Monday to Thursday the four
    every-day ones; on Friday the start of day at the regular time, the
    end of day at the weekend time and the start of night at the weekend
    time; on Saturday the four weekend times; on Sunday the start of day
    and the end of night at the weekend times and the end of day and
    start of night at the regular times.  So each handler can fire on
    each day, but for the end of night on Friday: once the block has run
    on a Friday, no alarm that can fire that day ends the night. *)
Theorem X17_week_plan cap stored inputs d :
  (15 ≤ cap)%nat →
  let g := run inputs (reset cap stored) in
  initialized (activeSchedules g) = true →
  startHour (weekendDay (activeSchedules g)) ≠ -1 →
  let g' := exec (loop_tick (dow_to_int d)) g in
  firing_on d (Alarm g') = week_plan d (activeSchedules g')
  ∧ ∀ h, h ∈ onTickHandler <$> firing_on d (Alarm g')
         ↔ ¬ (h = cb_endNight ∧ d = dowFriday).
Proof.
  intros Hc g Hini Hw g'. apply Z.eqb_neq in Hw.
  assert (weekendActive (activeSchedules g) = true) as Hwa
    by (unfold weekendActive; by rewrite Hw).
  pose proof (loop_tick_same_activeSchedules (dow_to_int d) g) as Ha.
  unfold same_activeSchedules in Ha. fold g' in Ha.
  assert (installed (negb (is_weekend (dow_to_int d))) g') as Hi.
  { pose proof (run_Inv cap stored inputs Hc) as HI. fold g in HI.
    destruct HI as [_ [[? _]|[_ [armed Hi]]]]; [congruence|].
    subst g'. rewrite loop_tick_exec, Hini, Hwa.
    eapply same_alarms_installed; [apply setOutputState_same_alarms|].
    by eapply setWeekendTimerState_installed. }
  assert (firing_on d (Alarm g') = week_plan d (activeSchedules g')) as Hplan
    by (apply firing_on_installed; [done|by rewrite Ha]).
  split; [exact Hplan|]. intros h. rewrite Hplan.
  generalize (activeSchedules g'). intros a.
  destruct d, h; cbn; rewrite ?elem_of_cons, ?elem_of_nil; intuition congruence.
Qed.

Lemma X17_witness :
  (15 ≤ 20)%nat
  ∧ initialized (activeSchedules (run [Example.weekend_pass] Example.fresh)) = true
  ∧ startHour (weekendDay (activeSchedules (run [Example.weekend_pass] Example.fresh))) ≠ -1
  ∧ onTickHandler
      <$> firing_on dowFriday
            (Alarm (exec (loop_tick (dow_to_int dowFriday))
                      (run [Example.weekend_pass] Example.fresh)))
    = [cb_startDay; cb_endDay; cb_startNight].
Proof.
  assert (15 ≤ 20)%nat as Hc by lia.
  assert (initialized (activeSchedules (run [Example.weekend_pass] Example.fresh)) = true)
    as Hi by (by vm_compute).
  assert (startHour (weekendDay (activeSchedules
            (run [Example.weekend_pass] Example.fresh))) ≠ -1) as Hw by (by vm_compute).
  split; [exact Hc|]. split; [exact Hi|]. split; [exact Hw|].
  unfold Example.fresh in *.
  rewrite (proj1 (X17_week_plan 20 zero_StateContainer [Example.weekend_pass] dowFriday
                    Hc Hi Hw)).
  reflexivity.
Defined.

(** ** The intensities *)

Lemma map_percent i : map i 0 100 0 1023 = (i * 1023) ÷ 100.
Proof.
  unfold map. change (1023 - 0) with 1023. change (100 - 0) with 100.
  by rewrite Z.sub_0_r, Z.add_0_r.
Qed.

Lemma map_percent_range i : 0 ≤ map i 0 100 0 1023 ≤ 1023 ↔ 0 ≤ i ≤ 100.
Proof.
  rewrite map_percent.
  pose proof (Z.quot_rem' (i * 1023) 100) as He.
  destruct (Z.le_gt_cases 0 i) as [Hi|Hi].
  - pose proof (Z.rem_bound_pos (i * 1023) 100 ltac:(lia) ltac:(lia)). lia.
  - pose proof (Z.rem_bound_pos_neg (i * 1023) 100 ltac:(lia) ltac:(lia)). lia.
Qed.

(** X15.  The intensities of an accepted POST are not checked or clamped.
    When the day alarm has fired after the POST, [setOutputState] writes
    the day pin with [map(i, 0, 100, 0, 1023)] for the number [i] read
    from the field, and for [i] within two million either way (where
    [map] does not overflow) that duty cycle lies within the PWM range
    0 to 1023 exactly when [i] lies within 0 to 100; the night pin
    likewise. *)
Theorem X15_intensity_unchecked server locals saveOk clock ok1 ok2 g :
  accepted server = true →
  let i := WString.toInt (server_arg server "dayIntensity") in
  let j := WString.toInt (server_arg server "nightIntensity") in
  -2000000 ≤ i ≤ 2000000 → -2000000 ≤ j ≤ 2000000 →
  let g1 := exec (handlePostSchedule server locals saveOk clock) g in
  let g2 := exec setOutputState
              (exec (call_handler cb_startNight ok2) (exec (call_handler cb_startDay ok1) g1)) in
  pin_output dayPin g2 = PinPWM (map i 0 100 0 1023)
  ∧ pin_output nightPin g2 = PinPWM (map j 0 100 0 1023)
  ∧ (0 ≤ map i 0 100 0 1023 ≤ 1023 ↔ 0 ≤ i ≤ 100)
  ∧ (0 ≤ map j 0 100 0 1023 ≤ 1023 ↔ 0 ≤ j ≤ 100).
Proof.
  intros Ha i j _ _ g1 g2.
  pose proof (handlePostSchedule_stores server locals saveOk clock g Ha) as H.
  cbv zeta in H. destruct H as (_ & _ & _ & _ & Hd & Hn & _).
  fold g1 in Hd, Hn. fold i in Hd. fold j in Hn.
  split; [|split; [|split; apply map_percent_range]].
  - subst g2. rewrite setOutputState_exec, !call_handler_exec.
    clearbody g1. destruct g1 as [[] ? ? ? ? ? ? ? ? ?]. cbn in *. by rewrite Hd.
  - subst g2. rewrite setOutputState_exec, !call_handler_exec.
    clearbody g1. destruct g1 as [[] ? ? ? ? ? ? ? ? ?]. cbn in *. by rewrite Hn.
Qed.

Lemma X15_witness :
  accepted Example2.post_bright = true
  ∧ -2000000 ≤ WString.toInt (server_arg Example2.post_bright "dayIntensity") ≤ 2000000
  ∧ -2000000 ≤ WString.toInt (server_arg Example2.post_bright "nightIntensity") ≤ 2000000
  ∧ pin_output dayPin
      (exec setOutputState
         (exec (call_handler cb_startNight true)
            (exec (call_handler cb_startDay true)
               (exec (handlePostSchedule Example2.post_bright Example.locals true
                        "Tisdag, 06:59:00") Example.fresh))))
    = PinPWM 1534.
Proof.
  assert (accepted Example2.post_bright = true) as Ha by (by vm_compute).
  assert (WString.toInt (server_arg Example2.post_bright "dayIntensity") = 150) as Ei
    by (by vm_compute).
  assert (WString.toInt (server_arg Example2.post_bright "nightIntensity") = 30) as Ej
    by (by vm_compute).
  assert (-2000000 ≤ WString.toInt (server_arg Example2.post_bright "dayIntensity")
          ≤ 2000000) as Hi by (rewrite Ei; lia).
  assert (-2000000 ≤ WString.toInt (server_arg Example2.post_bright "nightIntensity")
          ≤ 2000000) as Hj by (rewrite Ej; lia).
  split; [exact Ha|]. split; [exact Hi|]. split; [exact Hj|].
  rewrite (proj1 (X15_intensity_unchecked Example2.post_bright Example.locals true
                    "Tisdag, 06:59:00" true true Example.fresh Ha Hi Hj)).
  rewrite Ei. reflexivity.
Defined.

(** ** The latch *)

(** X16.  Two alarm handlers run one after the other.  When they belong
    to the same channel (day or night) the state is as if only the second
    had run; otherwise each sets its own channel and the order does not
    matter for the outputs.  Either way the live flag
    [persistedInEEPROM] is the second commit's answer, and the flash
    holds the result when the second commit succeeded, what the first
    handler left when only the first did, and is untouched when neither
    did. *)
Theorem X16_handlers_compose h1 h2 ok1 ok2 g :
  let g1 := exec (call_handler h1 ok1) g in
  let g12 := exec (call_handler h2 ok2) g1 in
  (if bool_decide (day_channel h1 = day_channel h2)
   then activeSchedules g12 = activeSchedules (exec (call_handler h2 ok2) g)
   else currentState (activeSchedules g12)
        = currentState (activeSchedules (exec (call_handler h1 ok1)
                                           (exec (call_handler h2 ok2) g))))
  ∧ currentState (activeSchedules g12)
    = latch h2 (latch h1 (currentState (activeSchedules g)))
  ∧ persistedInEEPROM (activeSchedules g12) = ok2
  ∧ eeprom_flash (EEPROM g12)
    = (if ok2 then set_persistedInEEPROM true (activeSchedules g12)
       else if ok1 then set_persistedInEEPROM true (activeSchedules g1)
       else eeprom_flash (EEPROM g)).
Proof.
  intros g1 g12. subst g12 g1. rewrite !call_handler_exec.
  destruct g as [[? ? ? ? ? ? ? ? ? [[] []]] ? [? ?] ? ? ? ? ? ? ?];
    destruct h1, h2, ok1, ok2; vm_compute; by repeat split.
Qed.
